(** * Confidence intervals on the NHANES table: a shallow embedding of
      [week2/nhanes_confidence_intervals.ipynb]

    The notebook reads a flat table, recodes two columns, and applies
    closed-form formulas to grouped aggregates.  The embedding follows
    the notebook cell by cell.

    - The table is a list of rows; an empty CSV field (pandas [NaN]) is [None].
    - numpy's [float64] arithmetic is read as arithmetic on the reals
      ([+], [-], [*], [/], [sqrt], [** 2]); rounding is not modelled there.
      Module [F64] embeds the standard error and the interval of cells 11
      and 13 a second time, in binary64 itself, for the statements that
      depend on rounding.
    - A Python exception is the [None] of the error monad; a [NaN] entry of
      an aggregated frame is a [None] value.
    - [DataFrame.sample] threads the state of the random generator.
    - Plots are left out.  statsmodels' [zconfint_mean] is a parameter of
      the simulation. *)

From Stdlib Require Floats Uint63.
From Stdlib Require Import Reals Lra Lia ZArith List Bool Arith.
Import ListNotations.

Local Open Scope R_scope.

(** ** Error monad for cells that can raise *)

Definition obind {A B : Type} (c : option A) (k : A -> option B) : option B :=
  match c with
  | Some a => k a
  | None => None
  end.

Declare Scope opt_scope.
Delimit Scope opt_scope with opt.
Notation "x <- c ;; k" := (obind c (fun x => k))
  (at level 61, c at next level, right associativity) : opt_scope.
Notation "' pat <- c ;; k" := (obind c (fun x => match x with pat => k end))
  (at level 61, pat pattern, c at next level, right associativity) : opt_scope.

(** ** numpy reductions used by the notebook *)

Module Np.

(** [np.sum] of a float array. *)
Definition sum (xs : list R) : R := fold_right Rplus 0 xs.

(** [np.mean]: the sum divided by the number of entries. *)
Definition mean (xs : list R) : R := sum xs / INR (length xs).

(** A boolean array is averaged as zeros and ones. *)
Definition of_bool (b : bool) : R := if b then 1 else 0.

Definition mean_bool (bs : list bool) : R := mean (map of_bool bs).

End Np.

(** ** The table read by [pd.read_csv] (cell 3) *)

(** Only the four columns the notebook touches are kept.  [SMQ020] and
    [RIAGENDR] hold questionnaire codes, [RIDAGEYR] the age in years and
    [BMXBMI] the body mass index. *)
Record row : Type := mkRow {
  SMQ020 : option Z;
  RIAGENDR : option Z;
  RIDAGEYR : option Z;
  BMXBMI : option R
}.

Definition table : Type := list row.

(** ** Cell 5: recoding *)

Inductive smq : Type :=
| Yes
| No
| SmqCode (c : Z).

Inductive gender : Type :=
| Male
| Female
| GenderCode (c : Z).

(** [da.SMQ020.replace({1: "Yes", 2: "No", 7: np.nan, 9: np.nan})]: a value
    that is no key of the dictionary is left as it is. *)
Definition replace_SMQ020 (v : option Z) : option smq :=
  match v with
  | None => None
  | Some 1%Z => Some Yes
  | Some 2%Z => Some No
  | Some 7%Z => None
  | Some 9%Z => None
  | Some c => Some (SmqCode c)
  end.

(** [da.RIAGENDR.replace({1: "Male", 2: "Female"})]. *)
Definition replace_RIAGENDR (v : option Z) : option gender :=
  match v with
  | None => None
  | Some 1%Z => Some Male
  | Some 2%Z => Some Female
  | Some c => Some (GenderCode c)
  end.

Definition SMQ020x (r : row) : option smq := replace_SMQ020 (SMQ020 r).
Definition RIAGENDRx (r : row) : option gender := replace_RIAGENDR (RIAGENDR r).

Definition gender_eqb (a b : gender) : bool :=
  match a, b with
  | Male, Male => true
  | Female, Female => true
  | GenderCode c, GenderCode d => (c =? d)%Z
  | _, _ => false
  end.

(** [x == "Yes"] on one entry of the recoded column; a missing entry
    compares unequal. *)
Definition eq_Yes (v : option smq) : bool :=
  match v with
  | Some Yes => true
  | _ => false
  end.

(** ** Cell 7: the two recoded columns, complete cases only *)

(** [da[["SMQ020x", "RIAGENDRx"]].dropna()]. *)
Definition dropna_pair {A B : Type} (p : option A * option B) : list (A * B) :=
  match p with
  | (Some a, Some b) => [(a, b)]
  | _ => []
  end.

Definition dx_smoking (da : table) : list (smq * gender) :=
  flat_map (fun r => dropna_pair (SMQ020x r, RIAGENDRx r)) da.

(** ** Cell 9: proportion of smokers and group size per gender *)

(** The [SMQ020x] values of the rows of [dx] whose key is [g]. *)
Definition group_by_gender (dx : list (smq * gender)) (g : gender) : list smq :=
  map fst (filter (fun r => gender_eqb (snd r) g) dx).

(** Row [g] of [dz]: [(Proportion, Total_n)].  A gender without rows has
    no row in [dz], and looking it up raises. *)
Definition dz (dx : list (smq * gender)) (g : gender) : option (R * nat) :=
  match group_by_gender dx g with
  | [] => None
  | x => Some (Np.mean_bool (map (fun v => eq_Yes (Some v)) x), length x)
  end.

Local Open Scope opt_scope.

(** ** Cell 11: standard errors of the two proportions *)

Definition se_female (dx : list (smq * gender)) : option R :=
  ' (p, n) <- dz dx Female ;;
  Some (sqrt (p * (1 - p) / INR n)).

Definition se_male (dx : list (smq * gender)) : option R :=
  ' (p, n) <- dz dx Male ;;
  Some (sqrt (p * (1 - p) / INR n)).

(** ** Cells 13 and 15: one-proportion intervals

    Both cells run the same two lines on the [p] and [n] of their gender. *)

Definition lcb (p : R) (n : nat) : R := p - 1.96 * sqrt (p * (1 - p) / INR n).
Definition ucb (p : R) (n : nat) : R := p + 1.96 * sqrt (p * (1 - p) / INR n).

Definition ci_female (dx : list (smq * gender)) : option (R * R) :=
  ' (p, n) <- dz dx Female ;;
  Some (lcb p n, ucb p n).

Definition ci_male (dx : list (smq * gender)) : option (R * R) :=
  ' (p, n) <- dz dx Male ;;
  Some (lcb p n, ucb p n).

(** ** Cell 22: standard error of the difference of the two proportions *)

Definition se_diff (dx : list (smq * gender)) : option R :=
  se_f <- se_female dx ;;
  se_m <- se_male dx ;;
  Some (sqrt (se_f ^ 2 + se_m ^ 2)).

(** ** Cell 24: interval for the difference of the two proportions *)

Definition ci_diff (dx : list (smq * gender)) : option (R * R) :=
  ' (p_f, _) <- dz dx Female ;;
  ' (p_m, _) <- dz dx Male ;;
  sd <- se_diff dx ;;
  let d := p_f - p_m in
  let lcb := d - 2 * sd in
  let ucb := d + 2 * sd in
  Some (lcb, ucb).

(** ** Cell 27: smoking rates within age bands *)

Definition bins : list Z := [18; 30; 40; 50; 60; 70; 80]%Z.

(** [np.searchsorted(bins, x, side="left")] on increasing [bins]: the number
    of break points strictly below [x]. *)
Fixpoint searchsorted_left (bs : list Z) (x : Z) : nat :=
  match bs with
  | [] => 0%nat
  | b :: bs' => if (b <? x)%Z then S (searchsorted_left bs' x) else 0%nat
  end.

(** [pd.cut(x, bins)] with the defaults [right=True],
    [include_lowest=False]: the code of the band of [x], where band [k] is
    the interval from [bins[k]] (excluded) to [bins[k+1]] (included); a
    missing value, or one that falls at index [0] or [len(bins)], has no
    band. *)
Definition cut (x : option Z) (bs : list Z) : option nat :=
  match x with
  | None => None
  | Some v =>
      let ids := searchsorted_left bs v in
      if (ids =? length bs)%nat || (ids =? 0)%nat then None
      else Some (ids - 1)%nat
  end.

Definition agegrp (r : row) : option nat := cut (RIDAGEYR r) bins.

(** Left and right end of band [k]. *)
Definition band_left (k : nat) : Z := nth k bins 0%Z.
Definition band_right (k : nat) : Z := nth (S k) bins 0%Z.

(** [da.groupby(["agegrp", "RIAGENDRx"])]: a row with a missing key is in
    no group. *)
Definition in_group (k : nat) (g : gender) (r : row) : bool :=
  match agegrp r, RIAGENDRx r with
  | Some k', Some g' => (k' =? k)%nat && gender_eqb g' g
  | _, _ => false
  end.

Definition group_by_age_gender (da : table) (k : nat) (g : gender) : list row :=
  filter (in_group k g) da.

(** [pr]: [.agg({"SMQ020x": lambda x: np.mean(x=="Yes")}).unstack()]; the
    entry of a band and gender without rows is [NaN]. *)
Definition pr_smoking (da : table) (k : nat) (g : gender) : option R :=
  match group_by_age_gender da k g with
  | [] => None
  | x => Some (Np.mean_bool (map (fun r => eq_Yes (SMQ020x r)) x))
  end.

(** [dn]: [.agg({"SMQ020x": np.size}).unstack()]; [np.size] counts the rows
    of the group, missing answers included. *)
Definition dn_smoking (da : table) (k : nat) (g : gender) : nat :=
  length (group_by_age_gender da k g).

(** [se = np.sqrt(pr * (1 - pr) / dn)], entry by entry. *)
Definition se_smoking (da : table) (k : nat) (g : gender) : option R :=
  pr <- pr_smoking da k g ;;
  Some (sqrt (pr * (1 - pr) / INR (dn_smoking da k g))).

(** [se_diff = np.sqrt(se.Female**2 + se.Male**2)]. *)
Definition se_diff_smoking (da : table) (k : nat) : option R :=
  se_f <- se_smoking da k Female ;;
  se_m <- se_smoking da k Male ;;
  Some (sqrt (se_f ^ 2 + se_m ^ 2)).

(** [pq = pr.Female - pr.Male]. *)
Definition pq (da : table) (k : nat) : option R :=
  pr_f <- pr_smoking da k Female ;;
  pr_m <- pr_smoking da k Male ;;
  Some (pr_f - pr_m).

(** The two plotted curves [pq - 2*se_diff] and [pq + 2*se_diff]. *)
Definition band_smoking (da : table) (k : nat) : option (R * R) :=
  d <- pq da k ;;
  sd <- se_diff_smoking da k ;;
  Some (d - 2 * sd, d + 2 * sd).

(** ** Cells 30 and 32: pandas aggregations of a column with missing values *)

Definition dropna (col : list (option R)) : list R :=
  flat_map (fun v => match v with Some x => [x] | None => [] end) col.

Module Pd.

(** ["mean"]: the mean of the entries that are present. *)
Definition mean (col : list (option R)) : option R :=
  match dropna col with
  | [] => None
  | xs => Some (Np.mean xs)
  end.

(** ["std"]: the sample standard deviation ([ddof=1]) of the entries that
    are present; [NaN] below two entries. *)
Definition std (col : list (option R)) : option R :=
  let xs := dropna col in
  if (length xs <? 2)%nat then None
  else
    let m := Np.mean xs in
    Some (sqrt (Np.sum (map (fun x => (x - m) ^ 2) xs) / INR (length xs - 1))).

(** ["size"]: the number of rows, missing entries included. *)
Definition size (col : list (option R)) : nat := length col.

End Pd.

(** ** Cell 34: standard errors of the two mean BMI values, from the
       figures printed by cell 32 *)

Definition sem_female : R := 7.753 / sqrt 2976.
Definition sem_male : R := 6.253 / sqrt 2759.

(** ** Cell 37: interval for the mean BMI of females *)

Definition lcb_female : R := 29.94 - 1.96 * 7.753 / sqrt 2976.
Definition ucb_female : R := 29.94 + 1.96 * 7.753 / sqrt 2976.

(** ** Cells 41 and 43: difference of the two mean BMI values *)

Definition sem_diff : R := sqrt (sem_female ^ 2 + sem_male ^ 2).

Definition bmi_diff : R := 29.94 - 28.78.
Definition lcb_bmi_diff : R := bmi_diff - 2 * sem_diff.
Definition ucb_bmi_diff : R := bmi_diff + 2 * sem_diff.

(** ** Cell 46: BMI within age bands *)

Definition bmi_column (da : table) (k : nat) (g : gender) : list (option R) :=
  map BMXBMI (group_by_age_gender da k g).

(** [pr["BMXBMI", "sem", g] = pr["BMXBMI", "std", g] / np.sqrt(pr["BMXBMI", "size", g])]. *)
Definition sem_bmi (da : table) (k : nat) (g : gender) : option R :=
  sd <- Pd.std (bmi_column da k g) ;;
  Some (sd / sqrt (INR (Pd.size (bmi_column da k g)))).

Definition mean_diff_bmi (da : table) (k : nat) : option R :=
  m_f <- Pd.mean (bmi_column da k Female) ;;
  m_m <- Pd.mean (bmi_column da k Male) ;;
  Some (m_f - m_m).

Definition sem_diff_bmi (da : table) (k : nat) : option R :=
  sem_f <- sem_bmi da k Female ;;
  sem_m <- sem_bmi da k Male ;;
  Some (sqrt (sem_f ^ 2 + sem_m ^ 2)).

Definition lcb_diff_bmi (da : table) (k : nat) : option R :=
  md <- mean_diff_bmi da k ;;
  sd <- sem_diff_bmi da k ;;
  Some (md - 1.96 * sd).

Definition ucb_diff_bmi (da : table) (k : nat) : option R :=
  md <- mean_diff_bmi da k ;;
  sd <- sem_diff_bmi da k ;;
  Some (md + 1.96 * sd).

(** ** Cell 50: intervals from random subsamples *)

(** [da.loc[da.RIAGENDRx=="Female", ["RIAGENDRx", "BMXBMI"]].dropna()]. *)
Definition eq_Female (v : option gender) : bool :=
  match v with
  | Some Female => true
  | _ => false
  end.

Definition dx_bmi (da : table) : list (gender * R) :=
  flat_map (fun r => dropna_pair (RIAGENDRx r, BMXBMI r))
           (filter (fun r => eq_Female (RIAGENDRx r)) da).

(** [df.take(idx)]: the rows at the given positions; a position past the
    end raises. *)
Fixpoint take {A : Type} (idx : list nat) (df : list A) : option (list A) :=
  match idx with
  | [] => Some []
  | i :: idx' =>
      r <- nth_error df i ;;
      rs <- take idx' df ;;
      Some (r :: rs)
  end.

Section Simulation.

(** State of numpy's global random generator, which an unseeded
    [DataFrame.sample] reads and advances. *)
Variable rng : Type.

(** [choice N n s]: the [n] positions drawn without replacement among
    [N], and the state after the draw. *)
Variable choice : nat -> nat -> rng -> list nat * rng.

(** [sm.stats.DescrStatsW(x).zconfint_mean()], a function of statsmodels:
    lower and upper limit of the z-based 95% interval for the mean of [x]. *)
Variable zconfint_mean : list R -> R * R.

(** Computations that read the generator and can raise. *)
Definition M (A : Type) : Type := rng -> option (A * rng).

Definition ret {A : Type} (a : A) : M A := fun s => Some (a, s).

Definition bind {A B : Type} (c : M A) (k : A -> M B) : M B :=
  fun s =>
    match c s with
    | Some (a, s') => k a s'
    | None => None
    end.

(** [df.sample(n)] with the defaults [replace=False], [random_state=None]:
    raises when [n] exceeds the number of rows. *)
Definition sample {A : Type} (n : nat) (df : list A) : M (list A) :=
  fun s =>
    if (n <=? length df)%nat then
      let (idx, s') := choice (length df) n s in
      match take idx df with
      | Some rows => Some (rows, s')
      | None => None
      end
    else None.

(** The loop [for i in range(500)], with [i] iterations left and the list
    [cis] built so far. *)
Fixpoint inner_loop (i : nat) (n : nat) (dx : list (gender * R))
         (cis : list (R * R)) : M (list (R * R)) :=
  match i with
  | O => ret cis
  | S i' =>
      bind (sample n dx) (fun dz =>
      let ci := zconfint_mean (map snd dz) in
      inner_loop i' n dx (cis ++ [ci]))
  end.

(** The loop [for n in 100, 200, 400, 800]; [printed] collects the lines
    [print(n, mean_width)]. *)
Fixpoint outer_loop (ns : list nat) (dx : list (gender * R))
         (printed : list (nat * R)) (all_cis : list (list (R * R)))
  : M (list (nat * R) * list (list (R * R))) :=
  match ns with
  | [] => ret (printed, all_cis)
  | n :: ns' =>
      bind (inner_loop 500 n dx []) (fun cis =>
      let mean_width := Np.mean (map snd cis) - Np.mean (map fst cis) in
      outer_loop ns' dx (printed ++ [(n, mean_width)]) (all_cis ++ [cis]))
  end.

Definition simulation (dx : list (gender * R))
  : M (list (nat * R) * list (list (R * R))) :=
  outer_loop [100; 200; 400; 800]%nat dx [] [].

End Simulation.

Arguments ret {rng A} _ _.
Arguments bind {rng A B} _ _ _.

(** What [sample] draws: [sub] holds [n] rows of [df] at distinct positions. *)
Definition subsample {A : Type} (n : nat) (df sub : list A) : Prop :=
  exists idx, NoDup idx /\ length idx = n /\ take idx df = Some sub.

(** What numpy guarantees of a draw without replacement: as many positions
    as asked for, all distinct, all within the frame. *)
Definition draws_without_replacement {rng : Type}
           (choice : nat -> nat -> rng -> list nat * rng) : Prop :=
  forall (N n : nat) (s : rng),
    (n <= N)%nat ->
    length (fst (choice N n s)) = n /\
    NoDup (fst (choice N n s)) /\
    Forall (fun i => (i < N)%nat) (fst (choice N n s)).

(** One interval of the simulation: the z-interval of a subsample of size
    [n] of [dx]. *)
Definition drawn_interval (zconfint_mean : list R -> R * R) (n : nat)
           (dx : list (gender * R)) (ci : R * R) : Prop :=
  exists dz, subsample n dx dz /\ length dz = n /\
             ci = zconfint_mean (map snd dz).

(** What the simulation leaves for one sample size: the printed [line],
    that is [(n, mean_width)], and the array [cis]. *)
Definition size_report (zconfint_mean : list R -> R * R)
           (dx : list (gender * R)) (line : nat * R) (cis : list (R * R)) : Prop :=
  length cis = 500%nat /\
  Forall (drawn_interval zconfint_mean (fst line) dx) cis /\
  snd line = Np.mean (map snd cis) - Np.mean (map fst cis).

(** The codes of the six bands, in the order of the age-band frames. *)
Definition bands : list nat := seq 0 (length bins - 1).

(** The positions that successive calls of [sample] draw from a frame of
    [N] rows, one call for each entry of [sizes], each call starting from
    the state the call before it left. *)
Fixpoint draws {rng : Type} (choice : nat -> nat -> rng -> list nat * rng)
         (N : nat) (sizes : list nat) (s : rng) : list (list nat) :=
  match sizes with
  | [] => []
  | n :: sizes' =>
      let (idx, s') := choice N n s in
      idx :: draws choice N sizes' s'
  end.

(** ** The formulas of the specification *)

Module Spec.

(** SE = sqrt(p(1-p)/n). *)
Definition SE_proportion (p : R) (n : nat) : R := sqrt (p * (1 - p) / INR n).

(** The interval estimate ± z·SE. *)
Definition interval (z estimate SE : R) : R * R :=
  (estimate - z * SE, estimate + z * SE).

(** CI = estimate ± 1.96·SE. *)
Definition CI (estimate SE : R) : R * R := interval 1.96 estimate SE.

(** SE_diff = sqrt(SE1² + SE2²). *)
Definition SE_diff (SE1 SE2 : R) : R := sqrt (SE1 * SE1 + SE2 * SE2).

Definition width (ci : R * R) : R := snd ci - fst ci.

End Spec.

(** ** The standard error and the interval with numpy's invalid cases

    numpy yields [inf] or [nan] for a division by zero and [nan] for the
    square root of a negative number; no real value stands for them, so
    here they are [None]. *)

Module Checked.

Definition divide (x y : R) : option R :=
  if Req_dec_T y 0 then None else Some (x / y).

Definition sqrt (x : R) : option R :=
  if Rlt_dec x 0 then None else Some (R_sqrt.sqrt x).

(** [np.sqrt(p * (1 - p) / n)]. *)
Definition se (p : R) (n : nat) : option R :=
  q <- divide (p * (1 - p)) (INR n) ;;
  sqrt q.

(** [p - 1.96 * np.sqrt(p * (1 - p) / n)] and its upper counterpart. *)
Definition lcb (p : R) (n : nat) : option R :=
  s <- se p n ;;
  Some (p - 1.96 * s).

Definition ucb (p : R) (n : nat) : option R :=
  s <- se p n ;;
  Some (p + 1.96 * s).

End Checked.

(** ** The standard error and the interval in binary64

    The expressions of cells 11 and 13 once more, on IEEE 754 binary64
    numbers with round-to-nearest, the arithmetic numpy performs.  [p] is
    the mean of a 0/1 column with [c] ones among [n] entries, a single
    division, and [n] an integer converted to a float. *)

Module F64.

Import Floats.
Set Warnings "-inexact-float".

Definition of_Z (z : Z) : float := PrimFloat.of_uint63 (Uint63.of_Z z).

(** [np.mean(x=="Yes")] for [c] answers "Yes" among [n]. *)
Definition proportion (c n : Z) : float := (of_Z c / of_Z n)%float.

(** [np.sqrt(p * (1 - p) / n)]. *)
Definition se (p n : float) : float := PrimFloat.sqrt (p * (1 - p) / n)%float.

(** [p - 1.96 * np.sqrt(p * (1 - p) / n)] and [p + 1.96 * np.sqrt(p * (1 - p) / n)]. *)
Definition lcb (p n : float) : float :=
  (p - 1.96 * PrimFloat.sqrt (p * (1 - p) / n))%float.

Definition ucb (p n : float) : float :=
  (p + 1.96 * PrimFloat.sqrt (p * (1 - p) / n))%float.

Definition width (p n : float) : float := (ucb p n - lcb p n)%float.

(** [x / 2]. *)
Definition half (x : float) : float := (x / 2)%float.

(** For the proportion [c / n]: is the standard error at size [4 * n]
    equal ([==]) to half the one at size [n]? *)
Definition se_halves (c n : Z) : bool :=
  PrimFloat.eqb (se (proportion c n) (of_Z (4 * n)))
                (half (se (proportion c n) (of_Z n))).

(** Is the width at size [4 * n] equal ([==]) to half the width at [n]? *)
Definition width_halves (c n : Z) : bool :=
  PrimFloat.eqb (width (proportion c n) (of_Z (4 * n)))
                (half (width (proportion c n) (of_Z n))).

(** Do the two differ by at most [2^-52]? *)
Definition width_halves_within (c n : Z) : bool :=
  PrimFloat.leb
    (PrimFloat.abs (width (proportion c n) (of_Z (4 * n))
                    - half (width (proportion c n) (of_Z n)))%float)
    0x1p-52%float.

(** The two checks for the counts [c], [c + 1], ... ([fuel] of them) of a
    group of [n], and for the sizes [n], [n + 1], ... with all their
    counts from 0 to the size. *)
Fixpoint check_counts (fuel : nat) (c n : Z) : bool :=
  match fuel with
  | O => true
  | S fuel' =>
      se_halves c n && width_halves_within c n && check_counts fuel' (c + 1)%Z n
  end.

Fixpoint check_sizes (fuel : nat) (n : Z) : bool :=
  match fuel with
  | O => true
  | S fuel' => check_counts (S (Z.to_nat n)) 0%Z n && check_sizes fuel' (n + 1)%Z
  end.

(** Figures that the notebook prints (cells 11 and 13), and the widths at
    [p = 1/2] for the sizes 100 and 400. *)
Definition printed_se_female : float := 0.008444152146214435%float.
Definition printed_lcb_female : float := 0.288294683866098%float.
Definition printed_ucb_female : float := 0.32139576027925865%float.
Definition width_half_100 : float := 0.19599999999999995%float.
Definition width_half_400 : float := 0.09800000000000003%float.
Definition half_width_half_100 : float := 0.09799999999999998%float.

End F64.

(** The rows that cell 9 counts for gender [g]: both recoded columns are
    present and the gender is [g]; and those among them that answered "Yes". *)
Definition answered (g : gender) (r : row) : bool :=
  match SMQ020x r, RIAGENDRx r with
  | Some _, Some g' => gender_eqb g' g
  | _, _ => false
  end.

Definition answered_yes (g : gender) (r : row) : bool :=
  answered g r && eq_Yes (SMQ020x r).

(** [has_band r]: the row has an age band, that is, [agegrp] is not [NaN]. *)
Definition has_band (r : row) : bool :=
  match agegrp r with
  | Some _ => true
  | None => false
  end.

(** ** Concrete inputs *)

(** A small table: two women and two men aged 25, one smoker each. *)

Definition da_small : table :=
  [ mkRow (Some 1%Z) (Some 2%Z) (Some 25%Z) (Some 22);
    mkRow (Some 2%Z) (Some 2%Z) (Some 25%Z) (Some 24);
    mkRow (Some 1%Z) (Some 1%Z) (Some 25%Z) (Some 26);
    mkRow (Some 2%Z) (Some 1%Z) (Some 25%Z) (Some 28) ].

(** [da_small] and one more woman of 25 who refused to answer (code 7). *)
Definition da_refused : table :=
  da_small ++ [ mkRow (Some 7%Z) (Some 2%Z) (Some 25%Z) (Some 30) ].

(** A generator for concrete runs.  Its state is a position; a draw takes
    [n] consecutive positions starting there (moved back where they would
    pass the end of the frame) and advances the position by one. *)
Definition window_choice (N n : nat) (s : nat) : list nat * nat :=
  (seq (Nat.min s (N - n)) n, S s).

(** statsmodels' [DescrStatsW(x).zconfint_mean()] with unit weights, for
    concrete runs: the mean plus and minus [norm.ppf(0.975)] times
    [std_mean], the population standard deviation over [sqrt (n - 1)]. *)
Module Statsmodels.

Definition zcrit : R := 1.959963984540054.

Definition zconfint_mean (x : list R) : R * R :=
  let mean := Np.mean x in
  let var := Np.sum (map (fun xi => (xi - mean) ^ 2) x) / INR (length x) in
  let std_mean := sqrt var / sqrt (INR (length x) - 1) in
  (mean - zcrit * std_mean, mean + zcrit * std_mean).

End Statsmodels.

(** A table of 800 women: the first with BMI [a], the others with BMI [b]. *)
Definition da_women (a b : R) : table :=
  mkRow None (Some 2%Z) None (Some a)
  :: repeat (mkRow None (Some 2%Z) None (Some b)) 799.

(** * Cells beside the formulas *)

(** ** Cell 7: the table of counts *)

Definition smq_eqb (a b : smq) : bool :=
  match a, b with
  | Yes, Yes => true
  | No, No => true
  | SmqCode c, SmqCode d => (c =? d)%Z
  | _, _ => false
  end.

(** [pd.crosstab(dx.SMQ020x, dx.RIAGENDRx)]: the entry of answer [s] and
    gender [g], the number of rows of [dx] that hold both. *)
Definition crosstab (dx : list (smq * gender)) (s : smq) (g : gender) : nat :=
  length (filter (fun r => smq_eqb (fst r) s && gender_eqb (snd r) g) dx).

(** The codes of the NHANES code book: 1, 2, 7, 9 or nothing for [SMQ020],
    1, 2 or nothing for [RIAGENDR]. *)
Definition SMQ020_code (v : option Z) : bool :=
  match v with
  | None => true
  | Some c => ((c =? 1) || (c =? 2) || (c =? 7) || (c =? 9))%Z
  end.

Definition RIAGENDR_code (v : option Z) : bool :=
  match v with
  | None => true
  | Some c => ((c =? 1) || (c =? 2))%Z
  end.

(** ** Cells 30 and 32: the BMI column of a gender *)

Definition has_gender (g : gender) (r : row) : bool :=
  match RIAGENDRx r with
  | Some g' => gender_eqb g' g
  | None => false
  end.

(** [da.groupby("RIAGENDRx")] followed by the column [BMXBMI]. *)
Definition bmi_by_gender (da : table) (g : gender) : list (option R) :=
  map BMXBMI (filter (has_gender g) da).

(** ** Cell 39: the BMI values of the women *)

(** [da.loc[da.RIAGENDRx=="Female", "BMXBMI"].dropna()]. *)
Definition female_bmi (da : table) : list R :=
  dropna (map BMXBMI (filter (fun r => eq_Female (RIAGENDRx r)) da)).

(** ** Cells 52 and 54: intervals that miss the overall mean *)



(** [mn = dx.BMXBMI.mean()]. *)
Definition mn (dx : list (gender * R)) : option R :=
  Pd.mean (map (fun r => Some (snd r)) dx).



(** The sizes of the draws of cell 50, in the order of the draws. *)
Definition draw_sizes : list nat :=
  flat_map (fun n => repeat n 500) [100; 200; 400; 800]%nat.

(** * Properties *)

(** ** Arithmetic of the aggregates *)

Lemma sum_of_bool_bounds (bs : list bool) :
  0 <= Np.sum (map Np.of_bool bs) <= INR (length bs).
Proof.
  induction bs as [|b bs IH].
  - simpl. lra.
  - change (length (b :: bs)) with (S (length bs)). rewrite S_INR.
    simpl. destruct b; simpl; lra.
Qed.

Lemma mean_bool_range (bs : list bool) :
  bs <> [] -> 0 <= Np.mean_bool bs <= 1.
Proof.
  intros Hne. unfold Np.mean_bool, Np.mean. rewrite length_map.
  assert (Hlen : 0 < INR (length bs)).
  { apply lt_0_INR. destruct bs; [congruence | simpl; lia]. }
  pose proof (sum_of_bool_bounds bs) as [Hlo Hhi].
  split.
  - apply Rmult_le_pos; [exact Hlo | left; apply Rinv_0_lt_compat; exact Hlen].
  - apply Rmult_le_reg_r with (r := INR (length bs)); [exact Hlen|].
    unfold Rdiv. rewrite Rmult_assoc, Rinv_l by lra. lra.
Qed.

(** The proportion and the size that cell 9 reports for a gender always
    meet the side conditions of the standard-error formula. *)
Lemma dz_range (dx : list (smq * gender)) (g : gender) (p : R) (n : nat) :
  dz dx g = Some (p, n) -> 0 <= p <= 1 /\ (0 < n)%nat.
Proof.
  unfold dz. destruct (group_by_gender dx g) as [|v x] eqn:E; [discriminate|].
  intros H. injection H as <- <-. split.
  - apply mean_bool_range. simpl. discriminate.
  - simpl. lia.
Qed.

Lemma pr_smoking_range (da : table) (k : nat) (g : gender) (p : R) :
  pr_smoking da k g = Some p -> 0 <= p <= 1 /\ (0 < dn_smoking da k g)%nat.
Proof.
  unfold pr_smoking, dn_smoking.
  destruct (group_by_age_gender da k g) as [|r x] eqn:E; [discriminate|].
  intros H. injection H as <-. split.
  - apply mean_bool_range. simpl. discriminate.
  - simpl. lia.
Qed.

Lemma sqrt_quarter (y : R) : sqrt (y / 4) = sqrt y / 2.
Proof.
  replace (y / 4) with (/ 4 * y) by lra.
  rewrite sqrt_mult_alt by lra.
  replace (sqrt (/ 4)) with (/ 2); [lra|].
  symmetry. apply sqrt_lem_1; lra.
Qed.

Lemma pow2_mult (x : R) : x ^ 2 = x * x.
Proof. simpl. lra. Qed.

Example dz_small_female :
  dz (dx_smoking da_small) Female = Some (Np.mean_bool [true; false], 2%nat).
Proof. reflexivity. Qed.

Example dz_small_male :
  dz (dx_smoking da_small) Male = Some (Np.mean_bool [true; false], 2%nat).
Proof. reflexivity. Qed.

Example mean_bool_half : Np.mean_bool [true; false] = 1 / 2.
Proof. unfold Np.mean_bool, Np.mean. simpl. lra. Qed.

(** ** Standard error of a proportion *)

(** C2: for a group with proportion [p] between 0 and 1 and size [n > 0],
    the standard error the notebook computes is [sqrt (p * (1 - p) / n)],
    for the female and the male proportion of cell 11 and for every age band
    and gender of cell 27. *)
Theorem standard_error_of_proportion (da : table) (p : R) (n : nat) :
  0 <= p <= 1 ->
  (0 < n)%nat ->
  (dz (dx_smoking da) Female = Some (p, n) ->
   se_female (dx_smoking da) = Some (Spec.SE_proportion p n)) /\
  (dz (dx_smoking da) Male = Some (p, n) ->
   se_male (dx_smoking da) = Some (Spec.SE_proportion p n)) /\
  (forall (k : nat) (g : gender),
      pr_smoking da k g = Some p ->
      dn_smoking da k g = n ->
      se_smoking da k g = Some (Spec.SE_proportion p n)).
Proof.
  intros _ _. repeat split.
  - intros H. unfold se_female. rewrite H. reflexivity.
  - intros H. unfold se_male. rewrite H. reflexivity.
  - intros k g Hp Hn. unfold se_smoking. rewrite Hp, Hn. reflexivity.
Qed.

Lemma standard_error_of_proportion_witness :
  se_female (dx_smoking da_small)
  = Some (Spec.SE_proportion (Np.mean_bool [true; false]) 2).
Proof.
  apply (standard_error_of_proportion da_small (Np.mean_bool [true; false]) 2).
  - rewrite mean_bool_half. lra.
  - lia.
  - reflexivity.
Defined.

(** ** Standard error of a difference *)

(** C3: with [SE1] and [SE2] the standard errors of the two estimates, the
    standard error the notebook computes for their difference is
    [sqrt (SE1^2 + SE2^2)]: for the difference of the smoking proportions
    (cell 22), for its age-band version (cell 27), for the difference of the
    mean BMI values (cell 41) and for its age-band version (cell 46). *)
Theorem standard_error_of_difference (da : table) (SE1 SE2 : R) :
  (se_female (dx_smoking da) = Some SE1 ->
   se_male (dx_smoking da) = Some SE2 ->
   se_diff (dx_smoking da) = Some (Spec.SE_diff SE1 SE2)) /\
  (forall k : nat,
      se_smoking da k Female = Some SE1 ->
      se_smoking da k Male = Some SE2 ->
      se_diff_smoking da k = Some (Spec.SE_diff SE1 SE2)) /\
  sem_diff = Spec.SE_diff sem_female sem_male /\
  (forall k : nat,
      sem_bmi da k Female = Some SE1 ->
      sem_bmi da k Male = Some SE2 ->
      sem_diff_bmi da k = Some (Spec.SE_diff SE1 SE2)).
Proof.
  unfold Spec.SE_diff. repeat split.
  - intros H1 H2. unfold se_diff. rewrite H1, H2. cbn [obind].
    now rewrite !pow2_mult.
  - intros k H1 H2. unfold se_diff_smoking. rewrite H1, H2. cbn [obind].
    now rewrite !pow2_mult.
  - unfold sem_diff. now rewrite !pow2_mult.
  - intros k H1 H2. unfold sem_diff_bmi. rewrite H1, H2. cbn [obind].
    now rewrite !pow2_mult.
Qed.

Lemma standard_error_of_difference_witness :
  se_diff (dx_smoking da_small)
  = Some (Spec.SE_diff (sqrt (Np.mean_bool [true; false]
                              * (1 - Np.mean_bool [true; false]) / INR 2))
                       (sqrt (Np.mean_bool [true; false]
                              * (1 - Np.mean_bool [true; false]) / INR 2))).
Proof.
  apply (standard_error_of_difference da_small); reflexivity.
Defined.

(** ** Shape of the intervals *)

Lemma sem_diff_pos : 0 < sem_diff.
Proof.
  unfold sem_diff. apply sqrt_lt_R0.
  assert (Hf : 0 < sem_female).
  { unfold sem_female. apply Rdiv_lt_0_compat; [lra | apply sqrt_lt_R0; lra]. }
  assert (Hm : 0 < sem_male).
  { unfold sem_male. apply Rdiv_lt_0_compat; [lra | apply sqrt_lt_R0; lra]. }
  rewrite !pow2_mult. nra.
Qed.

(** On [da_small] both proportions are 1/2 over 2 answers, and cell 24
    reaches one unit to each side of their difference. *)
Lemma se_diff_small : se_diff (dx_smoking da_small) = Some (1 / 2).
Proof.
  unfold se_diff, se_female, se_male.
  rewrite dz_small_female, dz_small_male. cbn [obind].
  rewrite mean_bool_half. f_equal.
  assert (Ha : 1 / 2 * (1 - 1 / 2) / INR 2 = 1 / 8) by (simpl INR; lra).
  rewrite Ha, pow2_sqrt by lra.
  apply sqrt_lem_1; lra.
Qed.

Lemma ci_diff_small : ci_diff (dx_smoking da_small) = Some (-1, 1).
Proof.
  unfold ci_diff. rewrite dz_small_female, dz_small_male. cbn [obind].
  rewrite se_diff_small. cbn [obind]. f_equal. f_equal; lra.
Qed.

(** C1, as stated, fails.  On the notebook's own figures, the interval of
    cell 43 for the difference of the mean BMI values is not
    [bmi_diff - 1.96 * sem_diff, bmi_diff + 1.96 * sem_diff]; and on
    [da_small], where the difference of the proportions is 0 and its
    standard error 1/2, the interval of cell 24 is [-1, 1] and not
    [-0.98, 0.98]. *)
Lemma difference_intervals_are_not_z196 :
  (lcb_bmi_diff, ucb_bmi_diff) <> Spec.CI bmi_diff sem_diff /\
  (se_diff (dx_smoking da_small) = Some (1 / 2) /\
   ci_diff (dx_smoking da_small) = Some (-1, 1) /\
   Spec.CI (1 / 2 - 1 / 2) (1 / 2) = (-0.98, 0.98) /\
   ci_diff (dx_smoking da_small) <> Some (Spec.CI (1 / 2 - 1 / 2) (1 / 2))).
Proof.
  split.
  - unfold Spec.CI, Spec.interval, lcb_bmi_diff, ucb_bmi_diff. intros H.
    injection H as Hl _. pose proof sem_diff_pos. lra.
  - split; [exact se_diff_small|]. split; [exact ci_diff_small|].
    assert (Hci : Spec.CI (1 / 2 - 1 / 2) (1 / 2) = (-0.98, 0.98)).
    { unfold Spec.CI, Spec.interval. f_equal; lra. }
    split; [exact Hci|].
    rewrite ci_diff_small, Hci. intros H. injection H as H _. lra.
Qed.

(** C1, amended: the intervals computed by hand are [estimate - z * SE,
    estimate + z * SE] with [z = 1.96] for the one-proportion intervals
    (cells 13, 15), the one-mean interval (cell 37) and the age-band
    differences of means (cell 46), and with [z = 2] for the difference of
    proportions (cell 24), its age-band version (cell 27) and the difference
    of means (cell 43). *)
Theorem intervals_are_estimate_plus_minus_z_se (da : table) :
  (forall p n, dz (dx_smoking da) Female = Some (p, n) ->
     ci_female (dx_smoking da) = Some (Spec.CI p (Spec.SE_proportion p n))) /\
  (forall p n, dz (dx_smoking da) Male = Some (p, n) ->
     ci_male (dx_smoking da) = Some (Spec.CI p (Spec.SE_proportion p n))) /\
  (lcb_female, ucb_female) = Spec.CI 29.94 sem_female /\
  (forall k md sd,
     mean_diff_bmi da k = Some md ->
     sem_diff_bmi da k = Some sd ->
     lcb_diff_bmi da k = Some (fst (Spec.CI md sd)) /\
     ucb_diff_bmi da k = Some (snd (Spec.CI md sd))) /\
  (forall p_f n_f p_m n_m sd,
     dz (dx_smoking da) Female = Some (p_f, n_f) ->
     dz (dx_smoking da) Male = Some (p_m, n_m) ->
     se_diff (dx_smoking da) = Some sd ->
     ci_diff (dx_smoking da) = Some (Spec.interval 2 (p_f - p_m) sd)) /\
  (forall k d sd,
     pq da k = Some d ->
     se_diff_smoking da k = Some sd ->
     band_smoking da k = Some (Spec.interval 2 d sd)) /\
  (lcb_bmi_diff, ucb_bmi_diff) = Spec.interval 2 bmi_diff sem_diff.
Proof.
  repeat apply conj.
  - intros p n H. unfold ci_female. rewrite H. reflexivity.
  - intros p n H. unfold ci_male. rewrite H. reflexivity.
  - unfold Spec.CI, Spec.interval, lcb_female, ucb_female, sem_female.
    f_equal; lra.
  - intros k md sd Hmd Hsd. unfold lcb_diff_bmi, ucb_diff_bmi.
    rewrite Hmd, Hsd. split; reflexivity.
  - intros p_f n_f p_m n_m sd Hf Hm Hsd. unfold ci_diff.
    rewrite Hf, Hm. cbn [obind]. rewrite Hsd. reflexivity.
  - intros k d sd Hd Hsd. unfold band_smoking. rewrite Hd, Hsd. reflexivity.
  - reflexivity.
Qed.

Lemma intervals_are_estimate_plus_minus_z_se_witness :
  ci_female (dx_smoking da_small)
  = Some (Spec.CI (Np.mean_bool [true; false])
                  (Spec.SE_proportion (Np.mean_bool [true; false]) 2)).
Proof.
  apply (intervals_are_estimate_plus_minus_z_se da_small). reflexivity.
Defined.

(** ** Width and sample size *)

(** Over the reals the interval estimate ± 1.96 * SE at size [4 * n] is
    exactly half as wide as at size [n]. *)
Lemma spec_width_halves (p : R) (n : nat) :
  Spec.width (Spec.CI p (Spec.SE_proportion p (4 * n)))
  = Spec.width (Spec.CI p (Spec.SE_proportion p n)) / 2.
Proof.
  unfold Spec.width, Spec.CI, Spec.interval, Spec.SE_proportion. cbn [fst snd].
  rewrite mult_INR.
  replace (p * (1 - p) / (INR 4 * INR n)) with (p * (1 - p) / INR n / 4).
  - rewrite sqrt_quarter. lra.
  - change (INR 4) with (1 + 1 + 1 + 1). unfold Rdiv.
    destruct (Req_dec (INR n) 0) as [E|E].
    + rewrite E, Rmult_0_r, Rinv_0. lra.
    + field. exact E.
Qed.

(** The binary64 embedding gives the figures that cells 11 and 13 print for
    906 smokers among 2972 women. *)
Example f64_women_printed :
  F64.se (F64.proportion 906 2972) (F64.of_Z 2972) = F64.printed_se_female /\
  F64.lcb (F64.proportion 906 2972) (F64.of_Z 2972) = F64.printed_lcb_female /\
  F64.ucb (F64.proportion 906 2972) (F64.of_Z 2972) = F64.printed_ucb_female.
Proof. repeat split; vm_compute; reflexivity. Qed.

Lemma check_counts_sound (fuel : nat) (n : Z) :
  forall c0 : Z,
    F64.check_counts fuel c0 n = true ->
    forall c : Z, (c0 <= c < c0 + Z.of_nat fuel)%Z ->
                  F64.se_halves c n = true /\ F64.width_halves_within c n = true.
Proof.
  induction fuel as [|fuel IH]; intros c0 Hchk c Hc; [lia|].
  cbn [F64.check_counts] in Hchk.
  apply andb_prop in Hchk as [Hhere Hrest]. apply andb_prop in Hhere as [Hse Hw].
  destruct (Z.eq_dec c c0) as [->|Hne]; [split; assumption|].
  apply (IH (c0 + 1)%Z Hrest). lia.
Qed.

Lemma check_sizes_sound (fuel : nat) :
  forall n0 : Z,
    (0 <= n0)%Z ->
    F64.check_sizes fuel n0 = true ->
    forall n c : Z,
      (n0 <= n < n0 + Z.of_nat fuel)%Z -> (0 <= c <= n)%Z ->
      F64.se_halves c n = true /\ F64.width_halves_within c n = true.
Proof.
  induction fuel as [|fuel IH]; intros n0 Hn0 Hchk n c Hn Hc; [lia|].
  cbn [F64.check_sizes] in Hchk. apply andb_prop in Hchk as [Hhere Hrest].
  destruct (Z.eq_dec n n0) as [->|Hne].
  - apply (check_counts_sound _ _ 0%Z Hhere). lia.
  - apply (IH (n0 + 1)%Z ltac:(lia) Hrest); lia.
Qed.

Lemma check_sizes_1000 : F64.check_sizes 1000 1 = true.
Proof. vm_compute. reflexivity. Qed.

(** C6, as stated, fails in the arithmetic the notebook computes with.  For
    the proportion 50/100 cell 13 gives an interval of width
    0.19599999999999995 at size 100 and of width 0.09800000000000003 at
    size 400, and half of the former is 0.09799999999999998. *)
Lemma width_not_exactly_half_in_float64 :
  F64.width (F64.proportion 50 100) (F64.of_Z 100) = F64.width_half_100 /\
  F64.width (F64.proportion 50 100) (F64.of_Z 400) = F64.width_half_400 /\
  F64.half F64.width_half_100 = F64.half_width_half_100 /\
  F64.width_halves 50 100 = false.
Proof. repeat split; vm_compute; reflexivity. Qed.

(** C6, amended: over the reals, for a proportion [p] between 0 and 1 and
    [n > 0], the interval estimate ± 1.96 * SE at sample size [4 * n] is
    exactly half as wide as at [n].  In binary64, as the notebook computes
    it, the same holds of the standard error, and the width at [4 * m] is
    half the width at [m] up to rounding: for every group of [m <= 1000]
    subjects and every count [c] of smokers among them, the two differ by at
    most [2^-52]. *)
Theorem width_at_fourfold_size (p : R) (n : nat) (c m : Z) :
  0 <= p <= 1 ->
  (0 < n)%nat ->
  (0 < m <= 1000)%Z ->
  (0 <= c <= m)%Z ->
  Spec.width (Spec.CI p (Spec.SE_proportion p (4 * n)))
  = Spec.width (Spec.CI p (Spec.SE_proportion p n)) / 2 /\
  F64.se_halves c m = true /\
  F64.width_halves_within c m = true.
Proof.
  intros _ _ Hm Hc. split; [apply spec_width_halves|].
  apply (check_sizes_sound 1000 1%Z ltac:(lia) check_sizes_1000); lia.
Qed.

Lemma width_at_fourfold_size_witness :
  Spec.width (Spec.CI (1 / 2) (Spec.SE_proportion (1 / 2) (4 * 100)))
  = Spec.width (Spec.CI (1 / 2) (Spec.SE_proportion (1 / 2) 100)) / 2 /\
  F64.se_halves 50 100 = true /\
  F64.width_halves_within 50 100 = true.
Proof.
  exact (width_at_fourfold_size (1 / 2) 100 50 100
           ltac:(lra) ltac:(lia) ltac:(lia) ltac:(lia)).
Defined.

(** ** The interval contains its estimate *)

Lemma interval_around (z e s : R) :
  0 <= z -> 0 <= s -> e - z * s <= e <= e + z * s.
Proof. intros Hz Hs. pose proof (Rmult_le_pos z s Hz Hs). lra. Qed.

(** C7: every interval the notebook computes contains its point estimate,
    so its lower limit is at most its upper limit.  For an estimate [e] and
    a standard error [SE >= 0] this holds of [e ± 1.96 * SE] and of
    [e ± 2 * SE], and it holds of each interval computed in cells 13, 15,
    24, 27, 37, 43 and 46, whose standard errors are square roots. *)
Theorem interval_contains_estimate (da : table) (e SE : R) :
  0 <= SE ->
  (fst (Spec.CI e SE) <= e <= snd (Spec.CI e SE)) /\
  (fst (Spec.interval 2 e SE) <= e <= snd (Spec.interval 2 e SE)) /\
  (forall p n, lcb p n <= p <= ucb p n) /\
  (forall p_f n_f p_m n_m l u,
      dz (dx_smoking da) Female = Some (p_f, n_f) ->
      dz (dx_smoking da) Male = Some (p_m, n_m) ->
      ci_diff (dx_smoking da) = Some (l, u) ->
      l <= p_f - p_m <= u) /\
  (forall k d l u,
      pq da k = Some d ->
      band_smoking da k = Some (l, u) ->
      l <= d <= u) /\
  lcb_female <= 29.94 <= ucb_female /\
  lcb_bmi_diff <= bmi_diff <= ucb_bmi_diff /\
  (forall k md l u,
      mean_diff_bmi da k = Some md ->
      lcb_diff_bmi da k = Some l ->
      ucb_diff_bmi da k = Some u ->
      l <= md <= u).
Proof.
  intros HSE.
  split; [apply interval_around; lra|].
  split; [apply interval_around; lra|].
  split; [intros p n; apply interval_around; [lra | apply sqrt_pos]|].
  split.
  { intros p_f n_f p_m n_m l u Hf Hm. unfold ci_diff, se_diff.
    rewrite Hf, Hm. cbn [obind].
    destruct (se_female (dx_smoking da)) as [sf|]; [|discriminate].
    destruct (se_male (dx_smoking da)) as [sm|]; [|discriminate].
    cbn [obind]. intros H. injection H as <- <-.
    apply interval_around; [lra | apply sqrt_pos]. }
  split.
  { intros k d l u Hd. unfold band_smoking, se_diff_smoking. rewrite Hd.
    cbn [obind].
    destruct (se_smoking da k Female) as [sf|]; [|discriminate].
    destruct (se_smoking da k Male) as [sm|]; [|discriminate].
    cbn [obind]. intros H. injection H as <- <-.
    apply interval_around; [lra | apply sqrt_pos]. }
  split.
  { unfold lcb_female, ucb_female.
    assert (H : 0 <= 1.96 * 7.753 / sqrt 2976).
    { apply Rmult_le_pos; [lra|].
      left. apply Rinv_0_lt_compat, sqrt_lt_R0. lra. }
    lra. }
  split.
  { unfold lcb_bmi_diff, ucb_bmi_diff. pose proof sem_diff_pos. lra. }
  intros k md l u Hmd. unfold lcb_diff_bmi, ucb_diff_bmi, sem_diff_bmi.
  rewrite Hmd. cbn [obind].
  destruct (sem_bmi da k Female) as [sf|]; [|discriminate].
  destruct (sem_bmi da k Male) as [sm|]; [|discriminate].
  cbn [obind]. intros Hl Hu. injection Hl as <-. injection Hu as <-.
  apply interval_around; [lra | apply sqrt_pos].
Qed.

Lemma interval_contains_estimate_witness :
  fst (Spec.CI (1 / 2) (1 / 10)) <= 1 / 2 <= snd (Spec.CI (1 / 2) (1 / 10)).
Proof.
  apply (interval_contains_estimate da_small (1 / 2) (1 / 10)). lra.
Defined.

(** ** The formulas are defined on the notebook's inputs *)

Lemma checked_divide_ok (x y : R) : y <> 0 -> Checked.divide x y = Some (x / y).
Proof.
  intros H. unfold Checked.divide. destruct (Req_dec_T y 0); [contradiction | reflexivity].
Qed.

Lemma checked_sqrt_ok (x : R) : 0 <= x -> Checked.sqrt x = Some (sqrt x).
Proof.
  intros H. unfold Checked.sqrt. destruct (Rlt_dec x 0); [lra | reflexivity].
Qed.

Lemma radicand_nonneg (p : R) (n : nat) :
  0 <= p <= 1 -> (0 < n)%nat -> 0 <= p * (1 - p) / INR n.
Proof.
  intros Hp Hn. apply Rmult_le_pos.
  - apply Rmult_le_pos; lra.
  - left. apply Rinv_0_lt_compat, lt_0_INR. exact Hn.
Qed.

(** C10: for [0 <= p <= 1] and [n > 0] the divisor is not zero and the
    radicand [p * (1 - p) / n] is not negative, so the standard error and
    both limits of the interval are real values: the computation with
    numpy's invalid cases made explicit returns the values of cells 11
    and 13. *)
Theorem se_and_interval_well_defined (p : R) (n : nat) :
  0 <= p <= 1 ->
  (0 < n)%nat ->
  INR n <> 0 /\
  0 <= p * (1 - p) / INR n /\
  Checked.se p n = Some (sqrt (p * (1 - p) / INR n)) /\
  Checked.lcb p n = Some (lcb p n) /\
  Checked.ucb p n = Some (ucb p n).
Proof.
  intros Hp Hn.
  assert (Hn0 : INR n <> 0) by (apply not_0_INR; lia).
  pose proof (radicand_nonneg p n Hp Hn) as Hrad.
  assert (Hse : Checked.se p n = Some (sqrt (p * (1 - p) / INR n))).
  { unfold Checked.se. rewrite checked_divide_ok by exact Hn0.
    cbn [obind]. apply checked_sqrt_ok, Hrad. }
  repeat split; try assumption; try apply Hp.
  - unfold Checked.lcb. rewrite Hse. reflexivity.
  - unfold Checked.ucb. rewrite Hse. reflexivity.
Qed.

Lemma se_and_interval_well_defined_witness :
  INR 100 <> 0 /\
  0 <= 1 / 2 * (1 - 1 / 2) / INR 100 /\
  Checked.se (1 / 2) 100 = Some (sqrt (1 / 2 * (1 - 1 / 2) / INR 100)) /\
  Checked.lcb (1 / 2) 100 = Some (lcb (1 / 2) 100) /\
  Checked.ucb (1 / 2) 100 = Some (ucb (1 / 2) 100).
Proof.
  apply (se_and_interval_well_defined (1 / 2) 100); [lra | lia].
Defined.

Example checked_se_zero_size : Checked.se (1 / 2) 0 = None.
Proof.
  unfold Checked.se, Checked.divide. simpl INR.
  destruct (Req_dec_T 0 0); [reflexivity | contradiction].
Qed.

Example checked_se_bad_proportion : Checked.se 2 1 = None.
Proof.
  unfold Checked.se. rewrite checked_divide_ok by (simpl; lra).
  cbn [obind]. unfold Checked.sqrt. simpl INR.
  destruct (Rlt_dec (2 * (1 - 2) / 1) 0); [reflexivity | lra].
Qed.

(** ** Age bands *)

Ltac split_ltb :=
  repeat match goal with
         | |- context [(?b <? ?x)%Z] => destruct (Z.ltb_spec b x)
         end.

(** The band of an age, by comparison with the break points. *)
Lemma cut_bins_in_range (a : Z) :
  (18 < a <= 80)%Z ->
  exists k, cut (Some a) bins = Some k /\ (k < 6)%nat /\
            (band_left k < a <= band_right k)%Z.
Proof.
  intros Ha. unfold cut, bins. cbn [searchsorted_left]. split_ltb; try lia;
    cbn; eexists; (split; [reflexivity|]); cbn; lia.
Qed.

Lemma cut_bins_out_of_range (a : Z) :
  (a <= 18 \/ 80 < a)%Z -> cut (Some a) bins = None.
Proof.
  intros Ha. unfold cut, bins. cbn [searchsorted_left].
  split_ltb; try lia; reflexivity.
Qed.

Lemma band_unique (a : Z) (k k' : nat) :
  (k < 6)%nat -> (k' < 6)%nat ->
  (band_left k < a <= band_right k)%Z ->
  (band_left k' < a <= band_right k')%Z ->
  k' = k.
Proof.
  intros Hk Hk'.
  assert (Ek : (k = 0 \/ k = 1 \/ k = 2 \/ k = 3 \/ k = 4 \/ k = 5)%nat) by lia.
  assert (Ek' : (k' = 0 \/ k' = 1 \/ k' = 2 \/ k' = 3 \/ k' = 4 \/ k' = 5)%nat) by lia.
  unfold band_left, band_right, bins.
  destruct Ek as [->|[->|[->|[->|[->| ->]]]]];
    destruct Ek' as [->|[->|[->|[->|[->| ->]]]]]; cbn; lia.
Qed.

Lemma in_group_agegrp (k : nat) (g : gender) (r : row) :
  in_group k g r = true -> agegrp r = Some k.
Proof.
  unfold in_group. destruct (agegrp r) as [k'|]; [|discriminate].
  destruct (RIAGENDRx r); [|discriminate].
  intros H. apply andb_prop in H as [H _]. apply Nat.eqb_eq in H. now subst.
Qed.

Lemma group_ignores_rows_without_band (da : table) (k : nat) (g : gender) :
  group_by_age_gender (filter has_band da) k g = group_by_age_gender da k g.
Proof.
  unfold group_by_age_gender. induction da as [|r da IH]; [reflexivity|].
  simpl. unfold has_band at 1. destruct (agegrp r) as [k'|] eqn:E.
  - simpl. now rewrite IH.
  - rewrite IH. destruct (in_group k g r) eqn:G; [|reflexivity].
    apply in_group_agegrp in G. congruence.
Qed.

Example cut_18 : cut (Some 18%Z) bins = None.
Proof. reflexivity. Qed.

Example cut_19 : cut (Some 19%Z) bins = Some 0%nat.
Proof. reflexivity. Qed.

Example cut_30 : cut (Some 30%Z) bins = Some 0%nat.
Proof. reflexivity. Qed.

Example cut_31 : cut (Some 31%Z) bins = Some 1%nat.
Proof. reflexivity. Qed.

Example cut_80 : cut (Some 80%Z) bins = Some 5%nat.
Proof. reflexivity. Qed.

Example cut_81 : cut (Some 81%Z) bins = None.
Proof. reflexivity. Qed.

(** C8: the break points 18, 30, 40, 50, 60, 70, 80 give six contiguous
    bands; a subject whose age lies in (18, 80] gets exactly one of them,
    the one that contains the age; a subject aged 18 or less, or more than
    80, gets none, belongs to no age-and-gender group, and dropping all
    such subjects from the table changes none of the age-band aggregates. *)
Theorem age_bands_partition (da : table) (r : row) (a : Z) :
  RIDAGEYR r = Some a ->
  (map band_left bands = [18; 30; 40; 50; 60; 70]%Z /\
   map band_right bands = [30; 40; 50; 60; 70; 80]%Z) /\
  ((18 < a <= 80)%Z ->
   exists k, agegrp r = Some k /\ In k bands /\
             forall k', In k' bands ->
                        ((band_left k' < a <= band_right k')%Z <-> k' = k)) /\
  ((a <= 18 \/ 80 < a)%Z ->
   agegrp r = None /\
   (forall k g, ~ In r (group_by_age_gender da k g))) /\
  (forall k g,
      group_by_age_gender (filter has_band da) k g = group_by_age_gender da k g /\
      pr_smoking (filter has_band da) k g = pr_smoking da k g /\
      dn_smoking (filter has_band da) k g = dn_smoking da k g /\
      bmi_column (filter has_band da) k g = bmi_column da k g).
Proof.
  intros Hage.
  assert (Hbands : forall k, In k bands <-> (k < 6)%nat).
  { intros k. unfold bands, bins. cbn [length Nat.sub]. rewrite in_seq. lia. }
  split; [split; reflexivity|].
  split.
  { intros Ha. destruct (cut_bins_in_range a Ha) as (k & Hk & Hlt & Hin).
    exists k. unfold agegrp. rewrite Hage. split; [exact Hk|].
    split; [apply Hbands; exact Hlt|].
    intros k' Hk'. apply Hbands in Hk'. split.
    - intros Hin'. exact (band_unique a k k' Hlt Hk' Hin Hin').
    - intros ->. exact Hin. }
  split.
  { intros Ha.
    assert (Hnone : agegrp r = None).
    { unfold agegrp. rewrite Hage. apply cut_bins_out_of_range, Ha. }
    split; [exact Hnone|].
    intros k g Hin. unfold group_by_age_gender in Hin.
    apply filter_In in Hin as [_ Hg]. apply in_group_agegrp in Hg. congruence. }
  intros k g. unfold pr_smoking, dn_smoking, bmi_column.
  rewrite group_ignores_rows_without_band. repeat split.
Qed.

Lemma age_bands_partition_witness :
  exists k, agegrp (mkRow (Some 1%Z) (Some 2%Z) (Some 25%Z) (Some 22)) = Some k /\
            In k bands /\
            forall k', In k' bands ->
                       ((band_left k' < 25 <= band_right k')%Z <-> k' = k).
Proof.
  apply (age_bands_partition da_small
           (mkRow (Some 1%Z) (Some 2%Z) (Some 25%Z) (Some 22)) 25%Z).
  - reflexivity.
  - lia.
Defined.

(** ** Missing answers *)

Example replace_SMQ020_codes :
  replace_SMQ020 (Some 1%Z) = Some Yes /\
  replace_SMQ020 (Some 2%Z) = Some No /\
  replace_SMQ020 (Some 7%Z) = None /\
  replace_SMQ020 (Some 9%Z) = None.
Proof. repeat split. Qed.

(** Cell 7 keeps exactly the rows in which both recoded columns are present. *)
Lemma dx_smoking_complete_cases (da : table) (s : smq) (g : gender) :
  In (s, g) (dx_smoking da) <->
  exists r, In r da /\ SMQ020x r = Some s /\ RIAGENDRx r = Some g.
Proof.
  unfold dx_smoking. rewrite in_flat_map. split.
  - intros (r & Hr & Hin). exists r. split; [exact Hr|].
    destruct (SMQ020x r) as [s'|]; [|contradiction].
    destruct (RIAGENDRx r) as [g'|]; [|contradiction].
    simpl in Hin. destruct Hin as [E|[]]. injection E as -> ->. auto.
  - intros (r & Hr & Hs & Hg). exists r. split; [exact Hr|].
    rewrite Hs, Hg. simpl. auto.
Qed.

Lemma sum_app (xs ys : list R) : Np.sum (xs ++ ys) = Np.sum xs + Np.sum ys.
Proof.
  unfold Np.sum. induction xs as [|x xs IH]; simpl; [lra | rewrite IH; lra].
Qed.

Lemma group_by_gender_rows (da : table) (g : gender) :
  group_by_gender (dx_smoking da) g
  = flat_map (fun r => match SMQ020x r with
                       | Some v => if answered g r then [v] else []
                       | None => []
                       end) da.
Proof.
  unfold group_by_gender, dx_smoking. induction da as [|r da IH]; [reflexivity|].
  cbn [flat_map]. rewrite filter_app, map_app, IH. f_equal.
  unfold answered. destruct (SMQ020x r) as [v|]; [|reflexivity].
  destruct (RIAGENDRx r) as [g'|]; [|reflexivity].
  cbn. destruct (gender_eqb g' g); reflexivity.
Qed.

(** In cell 9 the size of a gender counts the rows in which both recoded
    columns are present, and the proportion is the share of "Yes" among
    them. *)
Lemma complete_cases_length (da : table) (g : gender) :
  length (group_by_gender (dx_smoking da) g) = length (filter (answered g) da).
Proof.
  rewrite group_by_gender_rows. induction da as [|r da IH]; [reflexivity|].
  cbn [flat_map filter]. rewrite length_app, IH. unfold answered at 1 3.
  destruct (SMQ020x r) as [v|]; [|reflexivity].
  destruct (RIAGENDRx r) as [g'|]; [|reflexivity].
  destruct (gender_eqb g' g); reflexivity.
Qed.

Lemma complete_cases_yes (da : table) (g : gender) :
  Np.sum (map Np.of_bool
              (map (fun v => eq_Yes (Some v)) (group_by_gender (dx_smoking da) g)))
  = INR (length (filter (answered_yes g) da)).
Proof.
  rewrite group_by_gender_rows. induction da as [|r da IH]; [reflexivity|].
  cbn [flat_map filter]. rewrite !map_app, sum_app, IH.
  unfold answered_yes at 2, answered.
  destruct (SMQ020x r) as [v|]; [|simpl; lra].
  destruct (RIAGENDRx r) as [g'|]; [|simpl; lra].
  destruct (gender_eqb g' g); [|simpl; lra].
  destruct v; cbn [andb eq_Yes map Np.of_bool Np.sum fold_right];
    [change (length (r :: filter (answered_yes g) da))
       with (S (length (filter (answered_yes g) da))); rewrite S_INR | |]; lra.
Qed.

(** In cell 9 the size of a gender counts the rows in which both recoded
    columns are present, and the proportion is the share of "Yes" among
    them. *)
Lemma dz_counts_complete_cases (da : table) (g : gender) (p : R) (n : nat) :
  dz (dx_smoking da) g = Some (p, n) ->
  n = length (filter (answered g) da) /\
  p = INR (length (filter (answered_yes g) da)) / INR n.
Proof.
  unfold dz. pose proof (complete_cases_length da g) as Hlen.
  pose proof (complete_cases_yes da g) as Hsum.
  destruct (group_by_gender (dx_smoking da) g) as [|v rows]; [discriminate|].
  intros H. injection H as <- <-. split; [exact Hlen|].
  change (Np.mean_bool (map (fun v => eq_Yes (Some v)) (v :: rows))
          = INR (length (filter (answered_yes g) da)) / INR (length (v :: rows))).
  unfold Np.mean_bool, Np.mean. rewrite Hsum, !length_map. reflexivity.
Qed.

(** The overall proportions of cell 9 leave the refused answer out. *)
Example dz_refused_female :
  dz (dx_smoking da_refused) Female = Some (Np.mean_bool [true; false], 2%nat).
Proof. reflexivity. Qed.

Example mean_bool_third : Np.mean_bool [true; false; false] = 1 / 3.
Proof. unfold Np.mean_bool, Np.mean. simpl. lra. Qed.

(** C9 at a table with a refused answer: the overall female proportion of
    cell 9 is 1/2 over 2 definite answers, while the age-band proportion of
    cell 27 for the same three women is 1/3 over 3 rows, the refused answer
    counted as a row and as not "Yes". *)
Theorem age_band_proportion_counts_missing_answers :
  dz (dx_smoking da_refused) Female = Some (1 / 2, 2%nat) /\
  pr_smoking da_refused 0 Female = Some (1 / 3) /\
  dn_smoking da_refused 0 Female = 3%nat.
Proof.
  split; [rewrite dz_refused_female, mean_bool_half; reflexivity|].
  split; [|reflexivity].
  rewrite <- mean_bool_third. reflexivity.
Qed.

(** ** The subsampling simulation *)

Lemma take_in_range {A : Type} (df : list A) (idx : list nat) :
  Forall (fun i => (i < length df)%nat) idx ->
  exists rows, take idx df = Some rows /\ length rows = length idx.
Proof.
  induction 1 as [|i idx Hi _ IH].
  - exists []. split; reflexivity.
  - destruct IH as (rows & Hrows & Hlen).
    destruct (nth_error df i) as [r|] eqn:E.
    + exists (r :: rows). simpl. rewrite E, Hrows. simpl. split; [reflexivity | lia].
    + apply nth_error_None in E. lia.
Qed.

Lemma dx_bmi_records (da : table) (g : gender) (v : R) :
  In (g, v) (dx_bmi da) <->
  g = Female /\
  exists r, In r da /\ RIAGENDRx r = Some Female /\ BMXBMI r = Some v.
Proof.
  unfold dx_bmi. rewrite in_flat_map. split.
  - intros (r & Hr & Hin). apply filter_In in Hr as [Hr Hf].
    destruct (RIAGENDRx r) as [[| |c]|] eqn:Eg; try discriminate.
    destruct (BMXBMI r) as [w|] eqn:Eb; [|contradiction].
    simpl in Hin. destruct Hin as [E|[]]. injection E as <- <-.
    split; [reflexivity|]. exists r. auto.
  - intros (-> & r & Hr & Hg & Hb). exists r. split.
    + apply filter_In. split; [exact Hr|]. rewrite Hg. reflexivity.
    + rewrite Hg, Hb. simpl. auto.
Qed.

Section SimulationFacts.

Variable rng : Type.
Variable choice : nat -> nat -> rng -> list nat * rng.
Variable zconfint_mean : list R -> R * R.
Hypothesis choice_ok : draws_without_replacement choice.

Lemma sample_succeeds {A : Type} (n : nat) (df : list A) (s : rng) :
  (n <= length df)%nat ->
  exists rows s', sample rng choice n df s = Some (rows, s') /\
                  subsample n df rows /\ length rows = n.
Proof.
  intros Hn. unfold sample.
  destruct (Nat.leb_spec n (length df)) as [_|Hlt]; [|lia].
  destruct (choice_ok (length df) n s Hn) as (Hlen & Hnd & Hin).
  destruct (choice (length df) n s) as [idx s'] eqn:E. simpl in *.
  destruct (take_in_range df idx Hin) as (rows & Hrows & Hl).
  rewrite Hrows. exists rows, s'. split; [reflexivity|]. split.
  - exists idx. auto.
  - lia.
Qed.

Lemma sample_raises {A : Type} (n : nat) (df : list A) (s : rng) :
  (length df < n)%nat -> sample rng choice n df s = None.
Proof.
  intros Hn. unfold sample.
  destruct (Nat.leb_spec n (length df)) as [Hle|_]; [lia | reflexivity].
Qed.

Lemma inner_loop_succeeds (n : nat) (dx : list (gender * R)) :
  (n <= length dx)%nat ->
  forall (i : nat) (cis : list (R * R)) (s : rng),
  exists new s',
    inner_loop rng choice zconfint_mean i n dx cis s = Some (cis ++ new, s') /\
    length new = i /\
    Forall (drawn_interval zconfint_mean n dx) new.
Proof.
  intros Hn. induction i as [|i IH]; intros cis s.
  - exists [], s. simpl. unfold ret. rewrite app_nil_r. auto.
  - destruct (sample_succeeds n dx s Hn) as (dz & s1 & Hs & Hsub & Hlen).
    destruct (IH (cis ++ [zconfint_mean (map snd dz)]) s1)
      as (new & s' & Hloop & Hnew & Hall).
    exists (zconfint_mean (map snd dz) :: new), s'.
    simpl. unfold bind. rewrite Hs, Hloop, <- app_assoc. simpl.
    repeat split; [lia|]. constructor; [|exact Hall].
    exists dz. auto.
Qed.

Lemma inner_loop_raises (n : nat) (dx : list (gender * R)) (i : nat)
      (cis : list (R * R)) (s : rng) :
  (length dx < n)%nat ->
  inner_loop rng choice zconfint_mean (S i) n dx cis s = None.
Proof.
  intros Hn. simpl. unfold bind. now rewrite sample_raises.
Qed.

Lemma outer_loop_succeeds (dx : list (gender * R)) (ns : list nat) :
  Forall (fun n => (n <= length dx)%nat) ns ->
  forall printed all_cis s,
  exists lines arrays s',
    outer_loop rng choice zconfint_mean ns dx printed all_cis s
    = Some ((printed ++ lines, all_cis ++ arrays), s') /\
    map fst lines = ns /\
    Forall2 (size_report zconfint_mean dx) lines arrays.
Proof.
  induction 1 as [|n ns Hn _ IH]; intros printed all_cis s.
  - exists [], [], s. simpl. unfold ret. rewrite !app_nil_r. auto.
  - destruct (inner_loop_succeeds n dx Hn 500 [] s)
      as (cis & s1 & Hin & Hlen & Hall).
    simpl app in Hin.
    destruct (IH (printed ++ [(n, Np.mean (map snd cis) - Np.mean (map fst cis))])
                 (all_cis ++ [cis]) s1)
      as (lines & arrays & s' & Hout & Hfst & Hrep).
    exists ((n, Np.mean (map snd cis) - Np.mean (map fst cis)) :: lines),
           (cis :: arrays), s'.
    change (outer_loop rng choice zconfint_mean (n :: ns) dx printed all_cis s)
      with (bind (inner_loop rng choice zconfint_mean 500 n dx [])
                 (fun cis =>
                    outer_loop rng choice zconfint_mean ns dx
                      (printed ++ [(n, Np.mean (map snd cis) - Np.mean (map fst cis))])
                      (all_cis ++ [cis])) s).
    unfold bind. rewrite Hin, Hout, <- !app_assoc. simpl.
    repeat split; [now rewrite Hfst|].
    constructor; [|exact Hrep]. repeat split; assumption.
Qed.

(** Whether the simulation raises depends on the frame only, not on the
    state of the generator. *)
Lemma outer_loop_raises_uniformly (dx : list (gender * R)) (ns : list nat) :
  (forall printed all_cis s,
      outer_loop rng choice zconfint_mean ns dx printed all_cis s <> None) \/
  (forall printed all_cis s,
      outer_loop rng choice zconfint_mean ns dx printed all_cis s = None).
Proof.
  induction ns as [|n ns IH].
  - left. intros printed all_cis s. simpl. unfold ret. discriminate.
  - destruct (Nat.le_gt_cases n (length dx)) as [Hn|Hn].
    + destruct IH as [IH|IH]; [left | right]; intros printed all_cis s;
        destruct (inner_loop_succeeds n dx Hn 500 [] s) as (cis & s1 & Hin & _);
        change (outer_loop rng choice zconfint_mean (n :: ns) dx printed all_cis s)
          with (bind (inner_loop rng choice zconfint_mean 500 n dx [])
                     (fun cis =>
                        outer_loop rng choice zconfint_mean ns dx
                          (printed ++ [(n, Np.mean (map snd cis) - Np.mean (map fst cis))])
                          (all_cis ++ [cis])) s);
        unfold bind; rewrite Hin; apply IH.
    + right. intros printed all_cis s.
      change (outer_loop rng choice zconfint_mean (n :: ns) dx printed all_cis s)
        with (bind (inner_loop rng choice zconfint_mean 500 n dx [])
                   (fun cis =>
                      outer_loop rng choice zconfint_mean ns dx
                        (printed ++ [(n, Np.mean (map snd cis) - Np.mean (map fst cis))])
                        (all_cis ++ [cis])) s).
      unfold bind. now rewrite inner_loop_raises.
Qed.

Lemma outer_loop_raises (dx : list (gender * R)) (ns : list nat) :
  Exists (fun n => (length dx < n)%nat) ns ->
  forall printed all_cis s,
    outer_loop rng choice zconfint_mean ns dx printed all_cis s = None.
Proof.
  induction ns as [|n ns IH]; intros Hex printed all_cis s; [inversion Hex|].
  change (outer_loop rng choice zconfint_mean (n :: ns) dx printed all_cis s)
    with (bind (inner_loop rng choice zconfint_mean 500 n dx [])
               (fun cis =>
                  outer_loop rng choice zconfint_mean ns dx
                    (printed ++ [(n, Np.mean (map snd cis) - Np.mean (map fst cis))])
                    (all_cis ++ [cis])) s).
  unfold bind. destruct (Nat.le_gt_cases n (length dx)) as [Hn|Hn].
  - destruct (inner_loop_succeeds n dx Hn 500 [] s) as (cis & s1 & Hin & _).
    rewrite Hin. apply IH. inversion Hex; subst; [lia | assumption].
  - now rewrite inner_loop_raises.
Qed.

(** With fewer than 800 rows the cell stops with the exception of [sample]. *)
Lemma simulation_raises (dx : list (gender * R)) (s : rng) :
  (length dx < 800)%nat -> simulation rng choice zconfint_mean dx s = None.
Proof.
  intros Hlen. unfold simulation. apply outer_loop_raises.
  apply Exists_exists. exists 800%nat. split; [simpl; auto | exact Hlen].
Qed.

End SimulationFacts.

Lemma window_choice_ok : draws_without_replacement window_choice.
Proof.
  intros N n s Hn. unfold window_choice. cbn [fst]. repeat split.
  - apply length_seq.
  - apply seq_NoDup.
  - apply Forall_forall. intros i Hi. apply in_seq in Hi. lia.
Qed.

Lemma length_dx_bmi_women (a b : R) : length (dx_bmi (da_women a b)) = 800%nat.
Proof. reflexivity. Qed.

(** C5: on a table with at least 800 non-missing female BMI records, and
    with a generator that draws without replacement, the simulation runs
    through; its frame [dx] holds exactly the female records with a BMI;
    it prints one line for each of 100, 200, 400, 800 in this order; for
    each size [n] it keeps exactly 500 intervals, each the z-interval of a
    subsample of size [n] of [dx]; and the printed width is the mean of the
    500 upper limits minus the mean of the 500 lower limits. *)
Theorem simulation_draws_and_reports
        (rng : Type) (choice : nat -> nat -> rng -> list nat * rng)
        (zconfint_mean : list R -> R * R) (da : table) (s : rng) :
  draws_without_replacement choice ->
  (800 <= length (dx_bmi da))%nat ->
  (forall g v,
      In (g, v) (dx_bmi da) <->
      g = Female /\
      exists r, In r da /\ RIAGENDRx r = Some Female /\ BMXBMI r = Some v) /\
  exists printed all_cis s',
    simulation rng choice zconfint_mean (dx_bmi da) s
    = Some ((printed, all_cis), s') /\
    map fst printed = [100; 200; 400; 800]%nat /\
    Forall2 (size_report zconfint_mean (dx_bmi da)) printed all_cis.
Proof.
  intros Hc Hlen. split; [intros g v; apply dx_bmi_records|].
  assert (Hns : Forall (fun n => (n <= length (dx_bmi da))%nat)
                       [100; 200; 400; 800]%nat).
  { repeat constructor; lia. }
  destruct (outer_loop_succeeds rng choice zconfint_mean Hc (dx_bmi da) _ Hns [] [] s)
    as (lines & arrays & s' & Hrun & Hfst & Hrep).
  exists lines, arrays, s'. unfold simulation. rewrite Hrun. auto.
Qed.

Lemma simulation_draws_and_reports_witness :
  exists printed all_cis s',
    simulation nat window_choice Statsmodels.zconfint_mean
               (dx_bmi (da_women 30 20)) 0%nat
    = Some ((printed, all_cis), s') /\
    map fst printed = [100; 200; 400; 800]%nat /\
    Forall2 (size_report Statsmodels.zconfint_mean (dx_bmi (da_women 30 20)))
            printed all_cis.
Proof.
  apply (simulation_draws_and_reports nat window_choice Statsmodels.zconfint_mean
           (da_women 30 20) 0%nat).
  - exact window_choice_ok.
  - rewrite length_dx_bmi_women. lia.
Defined.

(** ** Two runs of the simulation *)

Lemma sum_repeat (b : R) (n : nat) : Np.sum (repeat b n) = INR n * b.
Proof.
  induction n as [|n IH].
  - simpl. lra.
  - rewrite S_INR. simpl repeat. simpl Np.sum. fold (Np.sum (repeat b n)).
    rewrite IH. lra.
Qed.

Lemma mean_repeat (b : R) (n : nat) : (0 < n)%nat -> Np.mean (repeat b n) = b.
Proof.
  intros Hn. unfold Np.mean. rewrite sum_repeat, repeat_length.
  field. apply not_0_INR. lia.
Qed.

Lemma zconfint_mean_constant (b : R) (n : nat) :
  (0 < n)%nat -> Statsmodels.zconfint_mean (repeat b n) = (b, b).
Proof.
  intros Hn. unfold Statsmodels.zconfint_mean.
  rewrite mean_repeat by exact Hn. rewrite map_repeat, sum_repeat.
  replace (INR n * (b - b) ^ 2 / INR (length (repeat b n))) with 0.
  - rewrite sqrt_0. f_equal; unfold Rdiv; lra.
  - unfold Rdiv. rewrite pow2_mult. lra.
Qed.

Lemma zconfint_mean_upper (x : list R) :
  Np.mean x <= snd (Statsmodels.zconfint_mean x).
Proof.
  unfold Statsmodels.zconfint_mean. cbn [snd].
  set (v := Np.sum _ / _). set (w := INR (length x) - 1).
  assert (Hw : 0 <= / sqrt w).
  { destruct (Req_dec (sqrt w) 0) as [E|E].
    - rewrite E, Rinv_0. lra.
    - left. apply Rinv_0_lt_compat. pose proof (sqrt_pos w). lra. }
  assert (H : 0 <= Statsmodels.zcrit * (sqrt v / sqrt w)).
  { apply Rmult_le_pos; [unfold Statsmodels.zcrit; lra|].
    apply Rmult_le_pos; [apply sqrt_pos | exact Hw]. }
  lra.
Qed.

Lemma mean_women_first :
  Np.mean (30 :: repeat 20 99) = 20.1.
Proof.
  unfold Np.mean.
  change (Np.sum (30 :: repeat 20 99)) with (30 + Np.sum (repeat 20 99)).
  change (length (30 :: repeat 20 99)) with (S (length (repeat 20 99))).
  rewrite sum_repeat, repeat_length, !INR_IZR_INZ.
  change (Z.of_nat 99) with 99%Z. change (Z.of_nat 100) with 100%Z. lra.
Qed.

Lemma map_snd_pair {A B : Type} (a : A) (l : list B) :
  map snd (map (pair a) l) = l.
Proof.
  induction l as [|x l IH]; simpl; [reflexivity | now rewrite IH].
Qed.

(** What the two generators draw first from the 800 women. *)
Lemma sample_women_at_0 (a b : R) :
  sample nat window_choice 100 (dx_bmi (da_women a b)) 0%nat
  = Some (map (pair Female) (a :: repeat b 99), 1%nat).
Proof. reflexivity. Qed.

Lemma sample_women_at_1 (a b : R) :
  sample nat window_choice 100 (dx_bmi (da_women a b)) 1%nat
  = Some (map (pair Female) (repeat b 100), 2%nat).
Proof. reflexivity. Qed.

(** The first interval the simulation stores is the one of its first draw. *)
Lemma simulation_first_interval
      (rng : Type) (choice : nat -> nat -> rng -> list nat * rng)
      (zconfint_mean : list R -> R * R) (dx dz : list (gender * R)) (s s1 : rng) :
  draws_without_replacement choice ->
  (800 <= length dx)%nat ->
  sample rng choice 100 dx s = Some (dz, s1) ->
  exists lines rest arrays s',
    simulation rng choice zconfint_mean dx s
    = Some ((lines, (zconfint_mean (map snd dz) :: rest) :: arrays), s').
Proof.
  intros Hc Hlen Hs.
  assert (H100 : (100 <= length dx)%nat) by lia.
  destruct (inner_loop_succeeds rng choice zconfint_mean Hc 100 dx H100 499
              ([] ++ [zconfint_mean (map snd dz)]) s1)
    as (rest & s2 & Hin & _).
  set (cis := ([] ++ [zconfint_mean (map snd dz)]) ++ rest) in Hin.
  assert (Hns : Forall (fun n => (n <= length dx)%nat) [200; 400; 800]%nat).
  { repeat constructor; lia. }
  destruct (outer_loop_succeeds rng choice zconfint_mean Hc dx _ Hns
              ([] ++ [(100%nat, Np.mean (map snd cis) - Np.mean (map fst cis))])
              ([] ++ [cis]) s2)
    as (lines & arrays & s' & Hout & _).
  eexists _, rest, arrays, s'.
  unfold simulation.
  change (outer_loop rng choice zconfint_mean [100; 200; 400; 800]%nat dx [] [] s)
    with (bind (bind (sample rng choice 100 dx) (fun dz =>
                  inner_loop rng choice zconfint_mean 499 100 dx
                             ([] ++ [zconfint_mean (map snd dz)])))
               (fun cis =>
                  outer_loop rng choice zconfint_mean [200; 400; 800]%nat dx
                    ([] ++ [(100%nat, Np.mean (map snd cis) - Np.mean (map fst cis))])
                    ([] ++ [cis])) s).
  unfold bind. rewrite Hs, Hin. fold cis. rewrite Hout. reflexivity.
Qed.

(** C4, as stated, fails: on the same table of 800 women, a run whose
    generator first draws rows 0 to 99 and a run whose generator first
    draws rows 1 to 100 leave different simulation results. *)
Lemma simulation_differs_between_runs :
  option_map fst
    (simulation nat window_choice Statsmodels.zconfint_mean
                (dx_bmi (da_women 30 20)) 0%nat)
  <>
  option_map fst
    (simulation nat window_choice Statsmodels.zconfint_mean
                (dx_bmi (da_women 30 20)) 1%nat).
Proof.
  assert (Hlen : (800 <= length (dx_bmi (da_women 30 20)))%nat).
  { rewrite length_dx_bmi_women. lia. }
  destruct (simulation_first_interval nat window_choice Statsmodels.zconfint_mean
              _ _ _ _ window_choice_ok Hlen (sample_women_at_0 30 20))
    as (l0 & r0 & a0 & s0 & H0).
  destruct (simulation_first_interval nat window_choice Statsmodels.zconfint_mean
              _ _ _ _ window_choice_ok Hlen (sample_women_at_1 30 20))
    as (l1 & r1 & a1 & s1 & H1).
  rewrite H0, H1. cbn [option_map fst]. rewrite !map_snd_pair.
  pose proof (zconfint_mean_upper (30 :: repeat 20 99)) as Hup.
  rewrite mean_women_first in Hup.
  pose proof (zconfint_mean_constant 20 100 ltac:(lia)) as Hconst.
  remember (Statsmodels.zconfint_mean (30 :: repeat 20 99)) as c0.
  remember (Statsmodels.zconfint_mean (repeat 20 100)) as c1.
  intros E. injection E as _ E _ _.
  rewrite E, Hconst in Hup. cbn [snd] in Hup. lra.
Qed.

Lemma draws_app {rng : Type} (choice : nat -> nat -> rng -> list nat * rng)
      (N : nat) (n : nat) (sizes : list nat) (s : rng) :
  draws choice N (n :: sizes) s
  = fst (choice N n s) :: draws choice N sizes (snd (choice N n s)).
Proof. cbn [draws]. destruct (choice N n s); reflexivity. Qed.

Section SameDraws.

Variable rng : Type.
Variable choice : nat -> nat -> rng -> list nat * rng.
Variable zconfint_mean : list R -> R * R.

(** One call of [sample] from two states that draw the same positions. *)
Lemma sample_same_draw {A : Type} (n : nat) (df : list A) (s1 s2 : rng) :
  fst (choice (length df) n s1) = fst (choice (length df) n s2) ->
  (sample rng choice n df s1 = None /\ sample rng choice n df s2 = None) \/
  exists rows,
    sample rng choice n df s1 = Some (rows, snd (choice (length df) n s1)) /\
    sample rng choice n df s2 = Some (rows, snd (choice (length df) n s2)).
Proof.
  intros Hidx. unfold sample.
  destruct (n <=? length df)%nat; [|left; split; reflexivity].
  destruct (choice (length df) n s1) as [idx1 t1].
  destruct (choice (length df) n s2) as [idx2 t2].
  cbn [fst snd] in *. subst idx2.
  destruct (take idx1 df) as [rows|]; [right; exists rows | left]; split; reflexivity.
Qed.

Lemma inner_loop_same_draws (n : nat) (dx : list (gender * R)) (rest : list nat) :
  forall (i : nat) (cis : list (R * R)) (s1 s2 : rng),
    draws choice (length dx) (repeat n i ++ rest) s1
    = draws choice (length dx) (repeat n i ++ rest) s2 ->
    (inner_loop rng choice zconfint_mean i n dx cis s1 = None /\
     inner_loop rng choice zconfint_mean i n dx cis s2 = None) \/
    exists out t1 t2,
      inner_loop rng choice zconfint_mean i n dx cis s1 = Some (out, t1) /\
      inner_loop rng choice zconfint_mean i n dx cis s2 = Some (out, t2) /\
      draws choice (length dx) rest t1 = draws choice (length dx) rest t2.
Proof.
  induction i as [|i IH]; intros cis s1 s2 Hd.
  - right. exists cis, s1, s2. repeat split. exact Hd.
  - cbn [repeat app] in Hd. rewrite !draws_app in Hd. injection Hd as Hidx Htail.
    cbn [inner_loop]. unfold bind.
    destruct (sample_same_draw n dx s1 s2 Hidx) as [[E1 E2] | (rows & E1 & E2)];
      rewrite E1, E2; [left; split; reflexivity|].
    apply IH. exact Htail.
Qed.

Lemma outer_loop_same_draws (dx : list (gender * R)) :
  forall (ns : list nat) printed all_cis (s1 s2 : rng),
    draws choice (length dx) (flat_map (fun n => repeat n 500) ns) s1
    = draws choice (length dx) (flat_map (fun n => repeat n 500) ns) s2 ->
    option_map fst (outer_loop rng choice zconfint_mean ns dx printed all_cis s1)
    = option_map fst (outer_loop rng choice zconfint_mean ns dx printed all_cis s2).
Proof.
  induction ns as [|n ns IH]; intros printed all_cis s1 s2 Hd; [reflexivity|].
  cbn [flat_map] in Hd.
  change (outer_loop rng choice zconfint_mean (n :: ns) dx printed all_cis)
    with (bind (inner_loop rng choice zconfint_mean 500 n dx [])
               (fun cis =>
                  outer_loop rng choice zconfint_mean ns dx
                    (printed ++ [(n, Np.mean (map snd cis) - Np.mean (map fst cis))])
                    (all_cis ++ [cis]))).
  unfold bind.
  destruct (inner_loop_same_draws n dx _ 500 [] s1 s2 Hd)
    as [[E1 E2] | (out & t1 & t2 & E1 & E2 & Htail)]; rewrite E1, E2;
    [reflexivity|].
  apply IH. exact Htail.
Qed.

End SameDraws.

Lemma size_report_lengths (zconfint_mean : list R -> R * R)
      (dx : list (gender * R)) (lines : list (nat * R)) (arrays : list (list (R * R))) :
  Forall2 (size_report zconfint_mean dx) lines arrays ->
  map (@length (R * R)) arrays = map (fun _ => 500%nat) lines.
Proof.
  induction 1 as [|line cis lines arrays (Hlen & _) _ IH]; [reflexivity|].
  cbn [map]. now rewrite Hlen, IH.
Qed.

(** Two states of [window_choice] at or past the last admissible start draw
    the same rows. *)
Lemma window_draws_clamped (N : nat) (sizes : list nat) :
  forall s1 s2 : nat,
    (forall n, In n sizes -> (N - n <= s1)%nat /\ (N - n <= s2)%nat) ->
    draws window_choice N sizes s1 = draws window_choice N sizes s2.
Proof.
  induction sizes as [|n sizes IH]; intros s1 s2 H; [reflexivity|].
  rewrite !draws_app.
  assert (Hw : forall s, window_choice N n s = (seq (Nat.min s (N - n)) n, S s))
    by reflexivity.
  rewrite !Hw. cbn [fst snd].
  destruct (H n (or_introl eq_refl)) as [H1 H2].
  rewrite !Nat.min_r by lia. f_equal.
  apply IH. intros m Hm. destruct (H m (or_intror Hm)). split; lia.
Qed.

Lemma draw_sizes_at_least_100 (n : nat) : In n draw_sizes -> (100 <= n)%nat.
Proof.
  unfold draw_sizes. rewrite in_flat_map. intros (m & Hm & Hn).
  apply repeat_spec in Hn. subst n. simpl in Hm. lia.
Qed.

(** C4, amended: the subsampling simulation is the one operation that reads
    the unseeded generator, and it is a deterministic function of the table
    and of the rows that its 2000 calls of [dx.sample] draw.  Two runs over
    the same table that draw the same rows leave identical results, whatever
    the states of the generator; two runs that draw different rows raise or
    not alike, print the same sample sizes in the same order, and keep the
    same number of intervals for each size. *)
Theorem simulation_determined_by_draws
        (rng : Type) (choice : nat -> nat -> rng -> list nat * rng)
        (zconfint_mean : list R -> R * R) (da : table) (s1 s2 : rng) :
  (draws choice (length (dx_bmi da)) draw_sizes s1
   = draws choice (length (dx_bmi da)) draw_sizes s2 ->
   option_map fst (simulation rng choice zconfint_mean (dx_bmi da) s1)
   = option_map fst (simulation rng choice zconfint_mean (dx_bmi da) s2)) /\
  (draws_without_replacement choice ->
   (simulation rng choice zconfint_mean (dx_bmi da) s1 = None <->
    simulation rng choice zconfint_mean (dx_bmi da) s2 = None) /\
   (forall printed1 all_cis1 t1 printed2 all_cis2 t2,
       simulation rng choice zconfint_mean (dx_bmi da) s1
       = Some ((printed1, all_cis1), t1) ->
       simulation rng choice zconfint_mean (dx_bmi da) s2
       = Some ((printed2, all_cis2), t2) ->
       map fst printed1 = map fst printed2 /\
       map (@length (R * R)) all_cis1 = map (@length (R * R)) all_cis2)).
Proof.
  split.
  - intros Hd. unfold simulation. apply outer_loop_same_draws. exact Hd.
  - intros Hc. set (dx := dx_bmi da).
    destruct (Nat.le_gt_cases 800 (length dx)) as [Hlen|Hlen].
    + assert (Hns : Forall (fun n => (n <= length dx)%nat) [100; 200; 400; 800]%nat)
        by (repeat constructor; lia).
      destruct (outer_loop_succeeds rng choice zconfint_mean Hc dx _ Hns [] [] s1)
        as (l1 & a1 & u1 & Hrun1 & Hfst1 & Hrep1).
      destruct (outer_loop_succeeds rng choice zconfint_mean Hc dx _ Hns [] [] s2)
        as (l2 & a2 & u2 & Hrun2 & Hfst2 & Hrep2).
      unfold simulation. rewrite Hrun1, Hrun2. split; [split; discriminate|].
      intros printed1 all_cis1 t1 printed2 all_cis2 t2 E1 E2.
      injection E1 as <- <- _. injection E2 as <- <- _. cbn [app].
      split; [congruence|].
      rewrite (size_report_lengths _ _ _ _ Hrep1), (size_report_lengths _ _ _ _ Hrep2).
      rewrite <- (map_map fst (fun _ => 500%nat)).
      rewrite <- (map_map fst (fun _ => 500%nat) l2). congruence.
    + rewrite !(simulation_raises rng choice zconfint_mean Hc dx _ Hlen).
      split; [tauto | discriminate].
Qed.

Lemma simulation_determined_by_draws_witness :
  option_map fst
    (simulation nat window_choice Statsmodels.zconfint_mean
                (dx_bmi (da_women 30 20)) 700%nat)
  = option_map fst
    (simulation nat window_choice Statsmodels.zconfint_mean
                (dx_bmi (da_women 30 20)) 701%nat).
Proof.
  refine (proj1 (simulation_determined_by_draws nat window_choice
                   Statsmodels.zconfint_mean (da_women 30 20) 700%nat 701%nat) _).
  rewrite length_dx_bmi_women. apply window_draws_clamped.
  intros n Hn. apply draw_sizes_at_least_100 in Hn. lia.
Defined.

(** ** The figures the notebook prints

    The embedding reproduces the printed output of the cells on the counts
    of cell 7 (906 smokers among 2972 women), to the digits shown. *)

Lemma sqrt_between (a b x : R) :
  0 <= a -> 0 <= b -> a * a < x -> x < b * b -> a < sqrt x < b.
Proof.
  intros Ha Hb Hax Hxb. split.
  - rewrite <- (sqrt_square a Ha). apply sqrt_lt_1_alt. split; [nra | exact Hax].
  - rewrite <- (sqrt_square b Hb). apply sqrt_lt_1_alt. split; [nra | exact Hxb].
Qed.

Lemma se_women_printed :
  0.0084441 < sqrt (906 / 2972 * (1 - 906 / 2972) / INR 2972) < 0.0084442.
Proof.
  rewrite INR_IZR_INZ. change (Z.of_nat 2972) with 2972%Z.
  apply sqrt_between; lra.
Qed.

(** Cell 13 prints [0.288294683866098 0.32139576027925865]. *)
Example ci_women_printed :
  0.28829 < lcb (906 / 2972) 2972 < 0.28830 /\
  0.32139 < ucb (906 / 2972) 2972 < 0.32140.
Proof.
  unfold lcb, ucb. pose proof se_women_printed. lra.
Qed.

Lemma sqrt_2976 : 54.5527 < sqrt 2976 < 54.5528.
Proof. apply sqrt_between; lra. Qed.

(** Cell 37 prints [29.661446004723665 30.218553995276338]. *)
Example ci_bmi_women_printed :
  29.6614 < lcb_female < 29.6615 /\ 30.2185 < ucb_female < 30.2186.
Proof.
  unfold lcb_female, ucb_female. pose proof sqrt_2976 as [Hlo Hhi].
  assert (H : 0.27855 < 1.96 * 7.753 / sqrt 2976 < 0.27856).
  { split; apply Rmult_lt_reg_r with (sqrt 2976); try lra;
      unfold Rdiv; rewrite Rmult_assoc, Rinv_l by lra; lra. }
  lra.
Qed.

(** * Further properties of the cells *)

(** ** Counts, groups and proportions (cells 7 and 9) *)

Lemma sum_of_bool_count {A : Type} (f : A -> bool) (l : list A) :
  Np.sum (map Np.of_bool (map f l)) = INR (length (filter f l)).
Proof.
  induction l as [|x l IH]; [reflexivity|].
  cbn [map filter]. change (Np.sum (?a :: ?b)) with (a + Np.sum b).
  rewrite IH. destruct (f x).
  - change (length (x :: filter f l)) with (S (length (filter f l))).
    rewrite S_INR. simpl. lra.
  - simpl. lra.
Qed.

Lemma mean_bool_count {A : Type} (f : A -> bool) (l : list A) :
  Np.mean_bool (map f l) = INR (length (filter f l)) / INR (length l).
Proof.
  unfold Np.mean_bool, Np.mean. now rewrite sum_of_bool_count, !length_map.
Qed.

Lemma gender_eqb_eq (a b : gender) : gender_eqb a b = true <-> a = b.
Proof.
  destruct a, b; simpl; split; try congruence; try discriminate.
  - intros H. apply Z.eqb_eq in H. now subst.
  - intros H. injection H as ->. apply Z.eqb_refl.
Qed.

(** The row of [dz], read off its group. *)
Lemma dz_Some (dx : list (smq * gender)) (g : gender) (p : R) (n : nat) :
  dz dx g = Some (p, n) ->
  n = length (group_by_gender dx g) /\
  (0 < n)%nat /\
  p = INR (length (filter (fun v => eq_Yes (Some v)) (group_by_gender dx g))) / INR n.
Proof.
  unfold dz.
  pose proof (mean_bool_count (fun v => eq_Yes (Some v)) (group_by_gender dx g)) as Hm.
  destruct (group_by_gender dx g) as [|v x]; [discriminate|].
  intros H.
  assert (Hp : p = Np.mean_bool (map (fun v => eq_Yes (Some v)) (v :: x))) by congruence.
  assert (Hn : n = length (v :: x)) by congruence.
  rewrite Hp, Hn, Hm. repeat split. simpl. lia.
Qed.

Lemma dz_None (dx : list (smq * gender)) (g : gender) :
  dz dx g = None <-> group_by_gender dx g = [].
Proof.
  unfold dz. destruct (group_by_gender dx g); split; congruence.
Qed.

Lemma dx_answers_in_codebook (da : table) :
  forallb (fun r => SMQ020_code (SMQ020 r)) da = true ->
  Forall (fun r => fst r = Yes \/ fst r = No) (dx_smoking da).
Proof.
  intros Hcodes. apply Forall_forall. intros [s g] Hin.
  apply dx_smoking_complete_cases in Hin as (r & Hr & Hs & _).
  rewrite forallb_forall in Hcodes. specialize (Hcodes r Hr).
  unfold SMQ020x in Hs. destruct (SMQ020 r) as [c|]; [|discriminate].
  unfold SMQ020_code in Hcodes.
  rewrite !orb_true_iff, !Z.eqb_eq in Hcodes.
  destruct Hcodes as [[[-> | ->] | ->] | ->]; simpl in Hs;
    try discriminate; injection Hs as <-; auto.
Qed.

Lemma group_counts (dx : list (smq * gender)) (g : gender) :
  Forall (fun r => fst r = Yes \/ fst r = No) dx ->
  length (group_by_gender dx g) = (crosstab dx Yes g + crosstab dx No g)%nat /\
  length (filter (fun v => eq_Yes (Some v)) (group_by_gender dx g))
  = crosstab dx Yes g.
Proof.
  unfold group_by_gender, crosstab.
  induction 1 as [|[s g'] dx Hs _ IH]; [split; reflexivity|].
  destruct IH as [IH1 IH2]. cbn [filter fst snd].
  destruct (gender_eqb g' g); cbn [map filter length fst snd].
  - destruct Hs as [Hs | Hs]; cbn [fst] in Hs; subst s;
      cbn [smq_eqb andb filter length];
      change (eq_Yes (Some Yes)) with true; change (eq_Yes (Some No)) with false;
      cbn [length]; split; lia.
  - rewrite !andb_false_r. split; assumption.
Qed.

(** X1: on a table whose [SMQ020] codes are those of the code book, the row
    of [dz] for a gender agrees with the column of the cross table of cell
    7: its size is the count of "Yes" plus the count of "No", and its
    proportion is the count of "Yes" over that size. *)
Theorem dz_agrees_with_crosstab (da : table) (g : gender) (p : R) (n : nat) :
  forallb (fun r => SMQ020_code (SMQ020 r)) da = true ->
  dz (dx_smoking da) g = Some (p, n) ->
  n = (crosstab (dx_smoking da) Yes g + crosstab (dx_smoking da) No g)%nat /\
  p = INR (crosstab (dx_smoking da) Yes g) / INR n.
Proof.
  intros Hcodes Hdz. apply dz_Some in Hdz as (Hn & _ & Hp).
  destruct (group_counts (dx_smoking da) g (dx_answers_in_codebook da Hcodes))
    as [Hlen Hyes].
  rewrite Hyes in Hp. split; [lia | exact Hp].
Qed.

Lemma dz_agrees_with_crosstab_witness :
  2%nat = (crosstab (dx_smoking da_refused) Yes Female
           + crosstab (dx_smoking da_refused) No Female)%nat /\
  Np.mean_bool [true; false]
  = INR (crosstab (dx_smoking da_refused) Yes Female) / INR 2.
Proof.
  exact (dz_agrees_with_crosstab da_refused Female (Np.mean_bool [true; false]) 2
           eq_refl eq_refl).
Defined.

(** The restriction on the codes matters: a code outside the dictionary of
    cell 5 stays in [dx] and is counted in the size. *)
Example dz_counts_unknown_code :
  dz (dx_smoking [mkRow (Some 1%Z) (Some 2%Z) None None;
                  mkRow (Some 3%Z) (Some 2%Z) None None]) Female
  = Some (Np.mean_bool [true; false], 2%nat).
Proof. reflexivity. Qed.

Lemma dx_genders_in_codebook (da : table) :
  forallb (fun r => RIAGENDR_code (RIAGENDR r)) da = true ->
  Forall (fun r => snd r = Female \/ snd r = Male) (dx_smoking da).
Proof.
  intros Hcodes. apply Forall_forall. intros [s g] Hin.
  apply dx_smoking_complete_cases in Hin as (r & Hr & _ & Hg).
  rewrite forallb_forall in Hcodes. specialize (Hcodes r Hr).
  unfold RIAGENDRx in Hg. destruct (RIAGENDR r) as [c|]; [|discriminate].
  unfold RIAGENDR_code in Hcodes.
  rewrite !orb_true_iff, !Z.eqb_eq in Hcodes.
  destruct Hcodes as [-> | ->]; simpl in Hg; injection Hg as <-; auto.
Qed.

Lemma groups_cover (dx : list (smq * gender)) :
  Forall (fun r => snd r = Female \/ snd r = Male) dx ->
  (length (group_by_gender dx Female) + length (group_by_gender dx Male))%nat
  = length dx.
Proof.
  unfold group_by_gender.
  induction 1 as [|[s g] dx Hg _ IH]; [reflexivity|].
  cbn [snd] in Hg. rewrite !length_map in *.
  destruct Hg as [-> | ->]; cbn [filter snd gender_eqb length]; lia.
Qed.

(** X2: on a table whose [RIAGENDR] codes are those of the code book, the
    two groups of cell 9 split [dx]: the sizes reported for women and for
    men add up to the number of rows that cell 7 keeps. *)
Theorem group_sizes_add_up (da : table) (p_f p_m : R) (n_f n_m : nat) :
  forallb (fun r => RIAGENDR_code (RIAGENDR r)) da = true ->
  dz (dx_smoking da) Female = Some (p_f, n_f) ->
  dz (dx_smoking da) Male = Some (p_m, n_m) ->
  (n_f + n_m)%nat = length (dx_smoking da) /\
  (length (dx_smoking da) <= length da)%nat.
Proof.
  intros Hcodes Hf Hm.
  apply dz_Some in Hf as (-> & _). apply dz_Some in Hm as (-> & _).
  split; [apply groups_cover, dx_genders_in_codebook, Hcodes|].
  unfold dx_smoking. clear. induction da as [|r da IH]; [simpl; lia|].
  cbn [flat_map]. rewrite length_app. cbn [length].
  set (kept := length (flat_map _ da)) in *.
  destruct (SMQ020x r), (RIAGENDRx r); cbn [dropna_pair length]; lia.
Qed.

Lemma group_sizes_add_up_witness :
  (2 + 2)%nat = length (dx_smoking da_refused) /\
  (length (dx_smoking da_refused) <= length da_refused)%nat.
Proof.
  exact (group_sizes_add_up da_refused (Np.mean_bool [true; false])
           (Np.mean_bool [true; false]) 2 2 eq_refl eq_refl eq_refl).
Defined.

(** ** When the overall smoking cells raise *)

Lemma answered_iff (g : gender) (r : row) :
  answered g r = true <-> SMQ020x r <> None /\ RIAGENDRx r = Some g.
Proof.
  unfold answered. destruct (SMQ020x r) as [s|]; [|split; [discriminate | tauto]].
  destruct (RIAGENDRx r) as [g'|].
  - rewrite gender_eqb_eq. split.
    + intros ->. split; [discriminate | reflexivity].
    + intros [_ H]. now injection H.
  - split; [discriminate | intros [_ H]; discriminate].
Qed.

Lemma dz_defined_iff (da : table) (g : gender) :
  dz (dx_smoking da) g <> None <->
  exists r, In r da /\ SMQ020x r <> None /\ RIAGENDRx r = Some g.
Proof.
  rewrite dz_None. pose proof (complete_cases_length da g) as Hlen.
  split.
  - intros Hne.
    destruct (filter (answered g) da) as [|r rs] eqn:E.
    + destruct (group_by_gender (dx_smoking da) g); [congruence | discriminate].
    + assert (Hin : In r (filter (answered g) da)) by (rewrite E; left; reflexivity).
      apply filter_In in Hin as [Hin Ha]. exists r. split; [exact Hin|].
      apply answered_iff, Ha.
  - intros (r & Hin & Ha) Hnil. rewrite Hnil in Hlen. simpl in Hlen.
    assert (Hf : In r (filter (answered g) da)).
    { apply filter_In. split; [exact Hin | apply answered_iff, Ha]. }
    destruct (filter (answered g) da); [contradiction | discriminate].
Qed.

Lemma se_female_defined (dx : list (smq * gender)) :
  se_female dx <> None <-> dz dx Female <> None.
Proof.
  unfold se_female. destruct (dz dx Female) as [[p n]|]; cbn [obind];
    intuition congruence.
Qed.

Lemma se_male_defined (dx : list (smq * gender)) :
  se_male dx <> None <-> dz dx Male <> None.
Proof.
  unfold se_male. destruct (dz dx Male) as [[p n]|]; cbn [obind];
    intuition congruence.
Qed.

(** X3: the overall smoking cells have a value exactly when the lookups of
    their gender in [dz] succeed: the standard error and the interval of
    the women (cells 11 and 13) exactly when the table holds a woman whose
    smoking answer is not missing, those of the men (cells 11 and 15)
    exactly when it holds such a man, and the standard error and the
    interval of the difference (cells 22 and 24) exactly when it holds
    both. *)
Theorem smoking_cells_defined_iff (da : table) :
  (se_female (dx_smoking da) <> None <->
   exists r, In r da /\ SMQ020x r <> None /\ RIAGENDRx r = Some Female) /\
  (ci_female (dx_smoking da) <> None <->
   exists r, In r da /\ SMQ020x r <> None /\ RIAGENDRx r = Some Female) /\
  (se_male (dx_smoking da) <> None <->
   exists r, In r da /\ SMQ020x r <> None /\ RIAGENDRx r = Some Male) /\
  (ci_male (dx_smoking da) <> None <->
   exists r, In r da /\ SMQ020x r <> None /\ RIAGENDRx r = Some Male) /\
  (se_diff (dx_smoking da) <> None <->
   (exists r, In r da /\ SMQ020x r <> None /\ RIAGENDRx r = Some Female) /\
   (exists r, In r da /\ SMQ020x r <> None /\ RIAGENDRx r = Some Male)) /\
  (ci_diff (dx_smoking da) <> None <->
   (exists r, In r da /\ SMQ020x r <> None /\ RIAGENDRx r = Some Female) /\
   (exists r, In r da /\ SMQ020x r <> None /\ RIAGENDRx r = Some Male)).
Proof.
  rewrite <- !dz_defined_iff.
  unfold ci_diff, se_diff, ci_female, ci_male, se_female, se_male.
  destruct (dz (dx_smoking da) Female) as [[p_f n_f]|];
    destruct (dz (dx_smoking da) Male) as [[p_m n_m]|]; cbn [obind];
    repeat split; intros; try discriminate; try tauto;
    try (exfalso; intuition congruence).
Qed.

Example se_diff_without_men :
  se_female (dx_smoking [mkRow (Some 1%Z) (Some 2%Z) (Some 25%Z) (Some 22)]) <> None /\
  se_diff (dx_smoking [mkRow (Some 1%Z) (Some 2%Z) (Some 25%Z) (Some 22)]) = None.
Proof. split; [discriminate | reflexivity]. Qed.

(** ** A missing answer, overall and within an age band *)

Lemma group_by_age_gender_app (da1 da2 : table) (k : nat) (g : gender) :
  group_by_age_gender (da1 ++ da2) k g
  = group_by_age_gender da1 k g ++ group_by_age_gender da2 k g.
Proof. unfold group_by_age_gender. apply filter_app. Qed.





(** ** Size of the interval *)

Lemma se_formula_decreasing (p : R) (n m : nat) :
  0 <= p <= 1 -> (0 < n)%nat -> (n <= m)%nat ->
  sqrt (p * (1 - p) / INR m) <= sqrt (p * (1 - p) / INR n).
Proof.
  intros Hp Hn Hnm. apply sqrt_le_1_alt. unfold Rdiv.
  apply Rmult_le_compat_l; [nra|].
  apply Rinv_le_contravar; [apply lt_0_INR; exact Hn | apply le_INR; exact Hnm].
Qed.

(** X6: for a proportion between 0 and 1, the interval of cells 13 and 15
    can only shrink when the sample grows: at a larger size it lies inside
    the interval at a smaller size. *)
Theorem interval_narrows_with_sample_size (p : R) (n m : nat) :
  0 <= p <= 1 ->
  (0 < n)%nat ->
  (n <= m)%nat ->
  lcb p n <= lcb p m /\ lcb p m <= ucb p m /\ ucb p m <= ucb p n.
Proof.
  intros Hp Hn Hnm. unfold lcb, ucb.
  pose proof (se_formula_decreasing p n m Hp Hn Hnm).
  pose proof (sqrt_pos (p * (1 - p) / INR m)). lra.
Qed.

Lemma interval_narrows_with_sample_size_witness :
  lcb (1 / 2) 100 <= lcb (1 / 2) 400 /\
  lcb (1 / 2) 400 <= ucb (1 / 2) 400 /\
  ucb (1 / 2) 400 <= ucb (1 / 2) 100.
Proof.
  exact (interval_narrows_with_sample_size (1 / 2) 100 400
           ltac:(lra) ltac:(lia) ltac:(lia)).
Defined.

(** X7: the interval of cells 13 and 15 is not cut to the range of a
    proportion.  For [0 < p < 1] its lower limit is negative exactly when
    [n * p < 1.96^2 * (1 - p)], and its upper limit exceeds 1 exactly when
    [n * (1 - p) < 1.96^2 * p]. *)
Theorem interval_leaves_unit_range (p : R) (n : nat) :
  0 < p < 1 ->
  (0 < n)%nat ->
  (lcb p n < 0 <-> INR n * p < 1.96 * 1.96 * (1 - p)) /\
  (1 < ucb p n <-> INR n * (1 - p) < 1.96 * 1.96 * p).
Proof.
  intros Hp Hn. unfold lcb, ucb.
  assert (Hn' : 0 < INR n) by (apply lt_0_INR; exact Hn).
  assert (Hq : 0 <= p * (1 - p) / INR n) by (apply radicand_nonneg; [lra | exact Hn]).
  pose proof (sqrt_pos (p * (1 - p) / INR n)) as Hs.
  pose proof (sqrt_sqrt _ Hq) as Hss.
  set (s := sqrt (p * (1 - p) / INR n)) in *.
  assert (Hsn : s * s * INR n = p * (1 - p)).
  { rewrite Hss. field. lra. }
  split; split; intros H.
  - assert (H1 : p * p < 1.96 * 1.96 * (s * s)) by nra.
    assert (H2 : p * p * INR n < 1.96 * 1.96 * (p * (1 - p))).
    { rewrite <- Hsn. nra. }
    nra.
  - destruct (Rlt_le_dec (p - 1.96 * s) 0) as [Hlt|Hge]; [exact Hlt|].
    exfalso.
    assert (H1 : 1.96 * 1.96 * (s * s) <= p * p) by nra.
    assert (H2 : 1.96 * 1.96 * (p * (1 - p)) <= p * p * INR n).
    { rewrite <- Hsn. nra. }
    nra.
  - assert (H1 : (1 - p) * (1 - p) < 1.96 * 1.96 * (s * s)) by nra.
    assert (H2 : (1 - p) * (1 - p) * INR n < 1.96 * 1.96 * (p * (1 - p))).
    { rewrite <- Hsn. nra. }
    nra.
  - destruct (Rlt_le_dec 1 (p + 1.96 * s)) as [Hlt|Hge]; [exact Hlt|].
    exfalso.
    assert (H1 : 1.96 * 1.96 * (s * s) <= (1 - p) * (1 - p)) by nra.
    assert (H2 : 1.96 * 1.96 * (p * (1 - p)) <= (1 - p) * (1 - p) * INR n).
    { rewrite <- Hsn. nra. }
    nra.
Qed.

Lemma interval_leaves_unit_range_witness : lcb (1 / 2) 2 < 0 /\ 1 < ucb (1 / 2) 2.
Proof.
  split.
  - apply (proj1 (interval_leaves_unit_range (1 / 2) 2 ltac:(lra) ltac:(lia))).
    simpl INR. lra.
  - apply (proj2 (interval_leaves_unit_range (1 / 2) 2 ltac:(lra) ltac:(lia))).
    simpl INR. lra.
Defined.

Lemma root_sum_squares_bounds (a b : R) :
  0 <= a -> 0 <= b ->
  a <= sqrt (a ^ 2 + b ^ 2) /\ b <= sqrt (a ^ 2 + b ^ 2) /\
  sqrt (a ^ 2 + b ^ 2) <= a + b.
Proof.
  intros Ha Hb. rewrite !pow2_mult. repeat split.
  - rewrite <- (sqrt_square a Ha) at 1. apply sqrt_le_1_alt. nra.
  - rewrite <- (sqrt_square b Hb) at 1. apply sqrt_le_1_alt. nra.
  - rewrite <- (sqrt_square (a + b)) by lra. apply sqrt_le_1_alt. nra.
Qed.

Lemma se_female_nonneg (dx : list (smq * gender)) (se : R) :
  se_female dx = Some se -> 0 <= se.
Proof.
  unfold se_female. destruct (dz dx Female) as [[p n]|]; [|discriminate].
  cbn [obind]. intros H. injection H as <-. apply sqrt_pos.
Qed.

Lemma se_male_nonneg (dx : list (smq * gender)) (se : R) :
  se_male dx = Some se -> 0 <= se.
Proof.
  unfold se_male. destruct (dz dx Male) as [[p n]|]; [|discriminate].
  cbn [obind]. intros H. injection H as <-. apply sqrt_pos.
Qed.

Lemma se_smoking_nonneg (da : table) (k : nat) (g : gender) (se : R) :
  se_smoking da k g = Some se -> 0 <= se.
Proof.
  unfold se_smoking. destruct (pr_smoking da k g) as [p|]; [|discriminate].
  cbn [obind]. intros H. injection H as <-. apply sqrt_pos.
Qed.

(** X8: the standard error of a difference (cells 22 and 27) is at least
    each of the two standard errors it combines and at most their sum. *)
Theorem se_diff_between_max_and_sum (da : table) (se_f se_m sd : R) :
  (se_female (dx_smoking da) = Some se_f ->
   se_male (dx_smoking da) = Some se_m ->
   se_diff (dx_smoking da) = Some sd ->
   se_f <= sd /\ se_m <= sd /\ sd <= se_f + se_m) /\
  (forall k,
      se_smoking da k Female = Some se_f ->
      se_smoking da k Male = Some se_m ->
      se_diff_smoking da k = Some sd ->
      se_f <= sd /\ se_m <= sd /\ sd <= se_f + se_m).
Proof.
  split.
  - intros Hf Hm. unfold se_diff. rewrite Hf, Hm. cbn [obind].
    intros H. injection H as <-.
    apply root_sum_squares_bounds;
      [exact (se_female_nonneg _ _ Hf) | exact (se_male_nonneg _ _ Hm)].
  - intros k Hf Hm. unfold se_diff_smoking. rewrite Hf, Hm. cbn [obind].
    intros H. injection H as <-.
    apply root_sum_squares_bounds;
      [exact (se_smoking_nonneg _ _ _ _ Hf) | exact (se_smoking_nonneg _ _ _ _ Hm)].
Qed.

Lemma se_diff_between_max_and_sum_witness :
  sqrt (1 / 2 * (1 - 1 / 2) / INR 2) <= 1 / 2 /\
  sqrt (1 / 2 * (1 - 1 / 2) / INR 2) <= 1 / 2 /\
  1 / 2 <= sqrt (1 / 2 * (1 - 1 / 2) / INR 2) + sqrt (1 / 2 * (1 - 1 / 2) / INR 2).
Proof.
  refine (proj1 (se_diff_between_max_and_sum da_small _ _ (1 / 2)) _ _ se_diff_small).
  - unfold se_female. rewrite dz_small_female, mean_bool_half. reflexivity.
  - unfold se_male. rewrite dz_small_male, mean_bool_half. reflexivity.
Defined.

(** ** Domain of the standard error *)

Lemma checked_se_ok (p : R) (n : nat) :
  0 <= p <= 1 -> (0 < n)%nat -> exists v, Checked.se p n = Some v.
Proof.
  intros Hp Hn. exists (sqrt (p * (1 - p) / INR n)).
  unfold Checked.se. rewrite checked_divide_ok by (apply not_0_INR; lia).
  cbn [obind]. apply checked_sqrt_ok, radicand_nonneg; assumption.
Qed.

(** X9: with numpy's invalid cases made explicit, the expression of cell 11
    has a real value exactly when the size is not zero and the proportion
    lies between 0 and 1. *)
Theorem checked_se_defined_iff (p : R) (n : nat) :
  Checked.se p n <> None <-> (0 < n)%nat /\ 0 <= p <= 1.
Proof.
  split.
  - unfold Checked.se, Checked.divide, Checked.sqrt.
    destruct (Req_dec_T (INR n) 0) as [E|E]; cbn [obind]; [congruence|].
    destruct (Rlt_dec (p * (1 - p) / INR n) 0) as [Hneg|Hpos]; [congruence|].
    intros _.
    assert (Hn : (0 < n)%nat).
    { destruct n; [simpl in E; lra | lia]. }
    split; [exact Hn|].
    assert (Hn' : 0 < INR n) by (apply lt_0_INR; exact Hn).
    assert (Hq : 0 <= p * (1 - p)).
    { apply Rnot_lt_le in Hpos.
      replace (p * (1 - p)) with (p * (1 - p) / INR n * INR n) by (field; lra).
      apply Rmult_le_pos; lra. }
    nra.
  - intros [Hn Hp].
    destruct (checked_se_ok p n Hp Hn) as [v Hv].
    congruence.
Qed.

(** ** Age bands and their groups (cells 27 and 46) *)

Lemma agegrp_in_band (r : row) (k : nat) :
  agegrp r = Some k ->
  exists a, RIDAGEYR r = Some a /\ (k < 6)%nat /\
            (band_left k < a <= band_right k)%Z.
Proof.
  unfold agegrp. destruct (RIDAGEYR r) as [a|]; [|discriminate].
  intros Hk. exists a. split; [reflexivity|].
  destruct (Z_lt_le_dec 18 a) as [Hlo|Hlo].
  - destruct (Z_le_gt_dec a 80) as [Hhi|Hhi].
    + destruct (cut_bins_in_range a (conj Hlo Hhi)) as (k0 & Hk0 & Hlt & Hin).
      rewrite Hk0 in Hk. injection Hk as <-. auto.
    + rewrite cut_bins_out_of_range in Hk by lia. discriminate.
  - rewrite cut_bins_out_of_range in Hk by lia. discriminate.
Qed.

Lemma bands_increase (k1 k2 : nat) :
  (k2 < k1)%nat -> (k1 < 6)%nat -> (band_right k2 <= band_left k1)%Z.
Proof.
  intros Hlt Hk1.
  assert (E1 : (k1 = 1 \/ k1 = 2 \/ k1 = 3 \/ k1 = 4 \/ k1 = 5)%nat) by lia.
  assert (E2 : (k2 = 0 \/ k2 = 1 \/ k2 = 2 \/ k2 = 3 \/ k2 = 4)%nat) by lia.
  unfold band_left, band_right, bins.
  destruct E1 as [->|[->|[->|[->| ->]]]];
    destruct E2 as [->|[->|[->|[->| ->]]]]; cbn; lia.
Qed.

(** X10: a subject that cell 27 puts in band [k] has an age, [k] is one of
    the six bands, and the age lies in that band; and the band never goes
    down with age: of two subjects with a band, the older one is in the
    same or a later band. *)
Theorem agegrp_sound_and_monotone (r1 r2 : row) (k1 k2 : nat) :
  agegrp r1 = Some k1 ->
  agegrp r2 = Some k2 ->
  (exists a1, RIDAGEYR r1 = Some a1 /\ In k1 bands /\
              (band_left k1 < a1 <= band_right k1)%Z) /\
  (forall a1 a2,
      RIDAGEYR r1 = Some a1 -> RIDAGEYR r2 = Some a2 ->
      (a1 <= a2)%Z -> (k1 <= k2)%nat).
Proof.
  intros H1 H2.
  destruct (agegrp_in_band r1 k1 H1) as (a1 & Ha1 & Hk1 & Hin1).
  destruct (agegrp_in_band r2 k2 H2) as (a2 & Ha2 & Hk2 & Hin2).
  split.
  - exists a1. split; [exact Ha1|]. split; [|exact Hin1].
    unfold bands, bins. cbn [length Nat.sub]. apply in_seq. lia.
  - intros b1 b2 Hb1 Hb2 Hle.
    assert (b1 = a1) by congruence. assert (b2 = a2) by congruence. subst b1 b2.
    destruct (Nat.le_gt_cases k1 k2) as [Hk|Hk]; [exact Hk|].
    pose proof (bands_increase k1 k2 Hk Hk1). lia.
Qed.

Lemma agegrp_sound_and_monotone_witness :
  exists a1, RIDAGEYR (mkRow None None (Some 30%Z) None) = Some a1 /\
             In 0%nat bands /\ (band_left 0 < a1 <= band_right 0)%Z.
Proof.
  exact (proj1 (agegrp_sound_and_monotone
                  (mkRow None None (Some 30%Z) None)
                  (mkRow None None (Some 31%Z) None) 0 1 eq_refl eq_refl)).
Defined.

Lemma filter_cons_length {A : Type} (f : A -> bool) (x : A) (l : list A) :
  length (filter f (x :: l))
  = ((if f x then 1 else 0) + length (filter f l))%nat.
Proof. cbn [filter]. destruct (f x); reflexivity. Qed.

Lemma in_group_cases (g : gender) (r : row) :
  (has_band r && has_gender g r = true /\
   exists k, (k < 6)%nat /\ forall k', in_group k' g r = (k =? k')%nat) \/
  (has_band r && has_gender g r = false /\ forall k', in_group k' g r = false).
Proof.
  unfold has_band, has_gender, in_group.
  destruct (agegrp r) as [k|] eqn:E.
  - destruct (RIAGENDRx r) as [g'|]; [|right; split; reflexivity].
    destruct (gender_eqb g' g).
    + left. split; [reflexivity|]. exists k. split.
      * destruct (agegrp_in_band r k E) as (_ & _ & Hk & _). exact Hk.
      * intros k'. now rewrite andb_true_r.
    + right. split; [reflexivity|]. intros k'. apply andb_false_r.
  - right. split; reflexivity.
Qed.

(** X11: the groups of cell 27 split the subjects that have a band: for each
    gender the sizes [dn] of the six bands add up to the number of rows of
    that gender with an age in (18, 80], whatever their smoking answer. *)
Theorem band_sizes_add_up (da : table) (g : gender) :
  list_sum (map (fun k => dn_smoking da k g) bands)
  = length (filter (fun r => has_band r && has_gender g r) da).
Proof.
  unfold dn_smoking, group_by_age_gender.
  change bands with [0; 1; 2; 3; 4; 5]%nat. cbn [map list_sum].
  induction da as [|r da IH]; [reflexivity|].
  rewrite !filter_cons_length.
  destruct (in_group_cases g r) as [(Hb & k & Hk & Hin) | (Hb & Hin)];
    rewrite Hb, !Hin.
  - assert (E : (k = 0 \/ k = 1 \/ k = 2 \/ k = 3 \/ k = 4 \/ k = 5)%nat) by lia.
    destruct E as [->|[->|[->|[->|[->| ->]]]]]; cbn [Nat.eqb];
      unfold list_sum in *; cbn [fold_right] in *; lia.
  - unfold list_sum in *. cbn [fold_right] in *. lia.
Qed.

Lemma pr_smoking_defined (da : table) (k : nat) (g : gender) :
  pr_smoking da k g <> None <-> (0 < dn_smoking da k g)%nat.
Proof.
  unfold pr_smoking, dn_smoking.
  destruct (group_by_age_gender da k g); simpl; split;
    try congruence; try lia; discriminate.
Qed.

(** X12: on a table whose [RIAGENDR] codes are those of the code book, the
    two curves of cell 27 have a value for a band exactly when the band
    holds at least one woman and one man; with an empty group the [NaN] of
    its proportion reaches both curves.  Where it has a value, the
    difference of the two proportions lies between -1 and 1. *)
Theorem band_smoking_defined_iff (da : table) (k : nat) :
  forallb (fun r => RIAGENDR_code (RIAGENDR r)) da = true ->
  (band_smoking da k <> None <->
   (0 < dn_smoking da k Female)%nat /\ (0 < dn_smoking da k Male)%nat) /\
  (forall d, pq da k = Some d -> -1 <= d <= 1).
Proof.
  intros _. split.
  - rewrite <- !pr_smoking_defined.
    unfold band_smoking, pq, se_diff_smoking, se_smoking.
    destruct (pr_smoking da k Female); destruct (pr_smoking da k Male);
      cbn [obind]; intuition congruence.
  - unfold pq. intros d.
    destruct (pr_smoking da k Female) as [p_f|] eqn:Ef; [|discriminate].
    destruct (pr_smoking da k Male) as [p_m|] eqn:Em; [|discriminate].
    cbn [obind]. intros H. injection H as <-.
    destruct (pr_smoking_range _ _ _ _ Ef) as [Hf _].
    destruct (pr_smoking_range _ _ _ _ Em) as [Hm _]. lra.
Qed.

Lemma band_smoking_defined_iff_witness :
  band_smoking da_small 0 <> None <->
  (0 < dn_smoking da_small 0 Female)%nat /\ (0 < dn_smoking da_small 0 Male)%nat.
Proof.
  exact (proj1 (band_smoking_defined_iff da_small 0 eq_refl)).
Defined.

Example band_without_men :
  band_smoking [mkRow (Some 1%Z) (Some 2%Z) (Some 25%Z) None] 0 = None.
Proof. reflexivity. Qed.

(** ** Aggregates of the BMI column (cells 30, 32, 39 and 46) *)

Lemma dropna_app (c1 c2 : list (option R)) :
  dropna (c1 ++ c2) = dropna c1 ++ dropna c2.
Proof. unfold dropna. apply flat_map_app. Qed.

Lemma bmi_column_insert (da1 da2 : table) (r : row) (k : nat) (g : gender) :
  in_group k g r = true ->
  bmi_column (da1 ++ r :: da2) k g
  = bmi_column da1 k g ++ BMXBMI r :: bmi_column da2 k g.
Proof.
  intros Hin. unfold bmi_column.
  rewrite group_by_age_gender_app, map_app. unfold group_by_age_gender at 2.
  cbn [filter]. rewrite Hin. reflexivity.
Qed.

Lemma bmi_column_app (da1 da2 : table) (k : nat) (g : gender) :
  bmi_column (da1 ++ da2) k g = bmi_column da1 k g ++ bmi_column da2 k g.
Proof. unfold bmi_column. now rewrite group_by_age_gender_app, map_app. Qed.

(** X13: in the age-band frame of cell 46 a subject without a BMI value
    leaves the mean and the standard deviation of its band and gender as
    they are, but counts in the size, and so in the divisor of the
    standard error of the mean: [sem] becomes [std / sqrt (size + 1)]. *)
Theorem missing_bmi_counts_in_sem
        (da1 da2 : table) (r : row) (k : nat) (g : gender) :
  BMXBMI r = None ->
  in_group k g r = true ->
  Pd.mean (bmi_column (da1 ++ r :: da2) k g) = Pd.mean (bmi_column (da1 ++ da2) k g) /\
  Pd.std (bmi_column (da1 ++ r :: da2) k g) = Pd.std (bmi_column (da1 ++ da2) k g) /\
  Pd.size (bmi_column (da1 ++ r :: da2) k g)
  = S (Pd.size (bmi_column (da1 ++ da2) k g)) /\
  sem_bmi (da1 ++ r :: da2) k g
  = option_map
      (fun sd => sd / sqrt (INR (S (Pd.size (bmi_column (da1 ++ da2) k g)))))
      (Pd.std (bmi_column (da1 ++ da2) k g)).
Proof.
  intros Hmiss Hin.
  assert (Hdrop : dropna (bmi_column (da1 ++ r :: da2) k g)
                  = dropna (bmi_column (da1 ++ da2) k g)).
  { rewrite bmi_column_insert by exact Hin.
    rewrite bmi_column_app, !dropna_app, Hmiss. reflexivity. }
  assert (Hsize : Pd.size (bmi_column (da1 ++ r :: da2) k g)
                  = S (Pd.size (bmi_column (da1 ++ da2) k g))).
  { unfold Pd.size. rewrite bmi_column_insert by exact Hin.
    rewrite bmi_column_app, !length_app. cbn [length]. lia. }
  assert (Hstd : Pd.std (bmi_column (da1 ++ r :: da2) k g)
                 = Pd.std (bmi_column (da1 ++ da2) k g)).
  { unfold Pd.std. now rewrite Hdrop. }
  repeat apply conj.
  - unfold Pd.mean. now rewrite Hdrop.
  - exact Hstd.
  - exact Hsize.
  - unfold sem_bmi. rewrite Hstd, Hsize.
    destruct (Pd.std (bmi_column (da1 ++ da2) k g)); reflexivity.
Qed.

Lemma missing_bmi_counts_in_sem_witness :
  Pd.size (bmi_column (da_small ++ [mkRow None (Some 2%Z) (Some 25%Z) None]) 0 Female)
  = S (Pd.size (bmi_column (da_small ++ []) 0 Female)).
Proof.
  exact (proj1 (proj2 (proj2 (missing_bmi_counts_in_sem da_small []
           (mkRow None (Some 2%Z) (Some 25%Z) None) 0 Female eq_refl eq_refl)))).
Defined.





Lemma has_gender_Female (r : row) :
  has_gender Female r = eq_Female (RIAGENDRx r).
Proof.
  unfold has_gender, eq_Female. destruct (RIAGENDRx r) as [[| |c]|]; reflexivity.
Qed.

Lemma dropna_present (dx : list (gender * R)) :
  dropna (map (fun r => Some (snd r)) dx) = map snd dx.
Proof.
  induction dx as [|r dx IH]; [reflexivity|].
  cbn [map]. change (dropna (Some (snd r) :: ?l)) with (snd r :: dropna l).
  now rewrite IH.
Qed.

Lemma female_bmi_dx (da : table) : female_bmi da = map snd (dx_bmi da).
Proof.
  unfold female_bmi, dx_bmi. induction da as [|r da IH]; [reflexivity|].
  cbn [filter]. destruct (eq_Female (RIAGENDRx r)) eqn:E; [|exact IH].
  cbn [map flat_map]. rewrite map_app, <- IH.
  change (BMXBMI r :: ?l) with ([BMXBMI r] ++ l). rewrite dropna_app. f_equal.
  destruct (RIAGENDRx r) as [g|]; [|discriminate].
  destruct (BMXBMI r); reflexivity.
Qed.

(** X16: the cells on the BMI of the women read the same values: the series
    of cell 39 is the BMI column of the frame [dx] of cell 50, both are the
    present entries of the female group of cells 30 and 32, and the target
    [mn] of cell 52 is the mean that cell 30 reports for the women. *)
Theorem female_bmi_shared (da : table) :
  female_bmi da = map snd (dx_bmi da) /\
  dropna (bmi_by_gender da Female) = female_bmi da /\
  mn (dx_bmi da) = Pd.mean (bmi_by_gender da Female).
Proof.
  assert (Hgrp : dropna (bmi_by_gender da Female) = female_bmi da).
  { unfold bmi_by_gender, female_bmi.
    now rewrite (filter_ext (has_gender Female)
                   (fun r => eq_Female (RIAGENDRx r)) has_gender_Female da). }
  split; [apply female_bmi_dx|]. split; [exact Hgrp|].
  unfold mn, Pd.mean. now rewrite dropna_present, Hgrp, female_bmi_dx.
Qed.

(** ** Drawing the subsamples (cell 50) *)

Lemma take_rows {A : Type} (df : list A) (idx : list nat) (rows : list A) :
  take idx df = Some rows ->
  length rows = length idx /\ forall r, In r rows -> In r df.
Proof.
  revert rows. induction idx as [|i idx IH]; intros rows.
  - simpl. intros H. injection H as <-. split; [reflexivity | intros r []].
  - cbn [take]. destruct (nth_error df i) as [x|] eqn:E; [|discriminate].
    cbn [obind]. destruct (take idx df) as [rs|]; [|discriminate].
    cbn [obind]. intros H. injection H as <-.
    destruct (IH rs eq_refl) as [Hlen Hin]. split; [simpl; lia|].
    intros r [<- | Hr]; [eapply nth_error_In; exact E | apply Hin, Hr].
Qed.

(** X17: with a generator that draws without replacement, [dx.sample(n)]
    raises exactly when [n] exceeds the number of rows; otherwise it
    returns [n] rows, each of them a row of the frame. *)
Theorem sample_draws_rows_of_the_frame
        (rng : Type) (choice : nat -> nat -> rng -> list nat * rng)
        (A : Type) (n : nat) (df : list A) (s : rng) :
  draws_without_replacement choice ->
  (sample rng choice n df s <> None <-> (n <= length df)%nat) /\
  (forall rows s',
      sample rng choice n df s = Some (rows, s') ->
      length rows = n /\ forall r, In r rows -> In r df).
Proof.
  intros Hc. split.
  - split.
    + intros Hne. destruct (Nat.le_gt_cases n (length df)) as [H|H]; [exact H|].
      now rewrite (sample_raises rng choice n df s H) in Hne.
    + intros Hn. destruct (sample_succeeds rng choice Hc n df s Hn)
        as (rows & s' & Hs & _). congruence.
  - intros rows s'. unfold sample.
    destruct (Nat.leb_spec n (length df)) as [Hn|_]; [|discriminate].
    destruct (Hc (length df) n s Hn) as (Hlen & _).
    destruct (choice (length df) n s) as [idx s1]. cbn [fst] in Hlen.
    destruct (take idx df) as [rs|] eqn:E; [|discriminate].
    intros H. injection H as <- _.
    destruct (take_rows df idx rs E) as [Hl Hin]. split; [lia | exact Hin].
Qed.

Lemma sample_draws_rows_of_the_frame_witness :
  sample nat window_choice 2 [22; 24; 26] 0%nat <> None.
Proof.
  apply (proj1 (sample_draws_rows_of_the_frame nat window_choice R 2 [22; 24; 26]
                  0%nat window_choice_ok)).
  simpl. lia.
Defined.

Example sample_too_large :
  sample nat window_choice 4 [22; 24; 26] 0%nat = None.
Proof. reflexivity. Qed.

(** X18: with a generator that draws without replacement, the simulation
    runs through exactly when [dx] holds at least 800 rows; with fewer the
    first call of [sample] for a size above the number of rows raises. *)
Theorem simulation_runs_iff
        (rng : Type) (choice : nat -> nat -> rng -> list nat * rng)
        (zconfint_mean : list R -> R * R) (dx : list (gender * R)) (s : rng) :
  draws_without_replacement choice ->
  (simulation rng choice zconfint_mean dx s <> None <-> (800 <= length dx)%nat).
Proof.
  intros Hc. split.
  - intros Hne. destruct (Nat.le_gt_cases 800 (length dx)) as [H|H]; [exact H|].
    now rewrite (simulation_raises rng choice zconfint_mean Hc dx s H) in Hne.
  - intros Hlen.
    assert (Hns : Forall (fun n => (n <= length dx)%nat) [100; 200; 400; 800]%nat)
      by (repeat constructor; lia).
    destruct (outer_loop_succeeds rng choice zconfint_mean Hc dx _ Hns [] [] s)
      as (lines & arrays & s' & Hrun & _).
    unfold simulation. congruence.
Qed.

Lemma simulation_runs_iff_witness :
  simulation nat window_choice Statsmodels.zconfint_mean
             (dx_bmi (da_women 30 20)) 0%nat <> None.
Proof.
  apply (proj2 (simulation_runs_iff nat window_choice Statsmodels.zconfint_mean
                  (dx_bmi (da_women 30 20)) 0%nat window_choice_ok)).
  rewrite length_dx_bmi_women. lia.
Defined.

Example simulation_raises_on_da_small :
  simulation nat window_choice Statsmodels.zconfint_mean (dx_bmi da_small) 0%nat = None.
Proof. reflexivity. Qed.

Lemma sample_state
      (rng : Type) (choice : nat -> nat -> rng -> list nat * rng)
      (A : Type) (n : nat) (df rows : list A) (s s' : rng) :
  sample rng choice n df s = Some (rows, s') ->
  s' = snd (choice (length df) n s).
Proof.
  unfold sample. destruct (n <=? length df)%nat; [|discriminate].
  destruct (choice (length df) n s) as [idx s1].
  destruct (take idx df); [|discriminate].
  intros H. injection H as _ <-. reflexivity.
Qed.

Lemma inner_loop_state
      (rng : Type) (choice : nat -> nat -> rng -> list nat * rng)
      (zconfint_mean : list R -> R * R) (n : nat) (dx : list (gender * R)) :
  forall (i : nat) (cis out : list (R * R)) (s s' : rng),
    inner_loop rng choice zconfint_mean i n dx cis s = Some (out, s') ->
    s' = fold_left (fun st m => snd (choice (length dx) m st)) (repeat n i) s.
Proof.
  induction i as [|i IH]; intros cis out s s'.
  - simpl. unfold ret. intros H. injection H as _ <-. reflexivity.
  - cbn [inner_loop repeat fold_left]. unfold bind.
    destruct (sample rng choice n dx s) as [[dz s1]|] eqn:E; [|discriminate].
    apply sample_state in E. subst s1. apply IH.
Qed.

Lemma outer_loop_state
      (rng : Type) (choice : nat -> nat -> rng -> list nat * rng)
      (zconfint_mean : list R -> R * R) (dx : list (gender * R)) :
  forall (ns : list nat) printed all_cis out (s s' : rng),
    outer_loop rng choice zconfint_mean ns dx printed all_cis s = Some (out, s') ->
    s' = fold_left (fun st m => snd (choice (length dx) m st))
                   (flat_map (fun n => repeat n 500) ns) s.
Proof.
  induction ns as [|n ns IH]; intros printed all_cis out s s'.
  - simpl. unfold ret. intros H. injection H as _ <-. reflexivity.
  - change (outer_loop rng choice zconfint_mean (n :: ns) dx printed all_cis s)
      with (bind (inner_loop rng choice zconfint_mean 500 n dx [])
                 (fun cis =>
                    outer_loop rng choice zconfint_mean ns dx
                      (printed ++ [(n, Np.mean (map snd cis) - Np.mean (map fst cis))])
                      (all_cis ++ [cis])) s).
    unfold bind.
    destruct (inner_loop rng choice zconfint_mean 500 n dx [] s)
      as [[cis s1]|] eqn:E; [|discriminate].
    apply inner_loop_state in E. intros H. apply IH in H.
    cbn [flat_map]. rewrite fold_left_app, <- E. exact H.
Qed.

(** X19: on a frame of at least 800 rows the simulation reads the generator
    2000 times and no more: 500 draws of size 100, then 500 of size 200,
    500 of size 400 and 500 of size 800, each from the state the draw
    before it left; the state it leaves is the one after the last draw. *)
Theorem simulation_draw_sequence
        (rng : Type) (choice : nat -> nat -> rng -> list nat * rng)
        (zconfint_mean : list R -> R * R) (dx : list (gender * R)) (s : rng) :
  draws_without_replacement choice ->
  (800 <= length dx)%nat ->
  length draw_sizes = 2000%nat /\
  exists out,
    simulation rng choice zconfint_mean dx s
    = Some (out, fold_left (fun st m => snd (choice (length dx) m st)) draw_sizes s).
Proof.
  intros Hc Hlen. split; [reflexivity|].
  assert (Hns : Forall (fun n => (n <= length dx)%nat) [100; 200; 400; 800]%nat)
    by (repeat constructor; lia).
  destruct (outer_loop_succeeds rng choice zconfint_mean Hc dx _ Hns [] [] s)
    as (lines & arrays & s' & Hrun & _).
  exists ([] ++ lines, [] ++ arrays). unfold simulation. rewrite Hrun.
  now rewrite (outer_loop_state _ _ _ _ _ _ _ _ _ _ Hrun).
Qed.

Lemma simulation_draw_sequence_witness :
  exists out,
    simulation nat window_choice Statsmodels.zconfint_mean
               (dx_bmi (da_women 30 20)) 0%nat
    = Some (out, fold_left (fun st m =>
                              snd (window_choice (length (dx_bmi (da_women 30 20))) m st))
                           draw_sizes 0%nat).
Proof.
  refine (proj2 (simulation_draw_sequence nat window_choice Statsmodels.zconfint_mean
                   (dx_bmi (da_women 30 20)) 0%nat window_choice_ok _)).
  rewrite length_dx_bmi_women. lia.
Defined.

(** ** Widths and coverage (cells 50, 52 and 54) *)

Lemma sum_widths (cis : list (R * R)) :
  Np.sum (map Spec.width cis) = Np.sum (map snd cis) - Np.sum (map fst cis).
Proof.
  induction cis as [|c cis IH]; [simpl; lra|].
  cbn [map]. change (Np.sum (?a :: ?b)) with (a + Np.sum b).
  rewrite IH. unfold Spec.width. lra.
Qed.

Lemma mean_width_formula (cis : list (R * R)) :
  Np.mean (map snd cis) - Np.mean (map fst cis) = Np.mean (map Spec.width cis).
Proof.
  unfold Np.mean. rewrite sum_widths, !length_map. unfold Rdiv. ring.
Qed.

Lemma mean_nonneg (xs : list R) :
  Forall (fun x => 0 <= x) xs -> 0 <= Np.mean xs.
Proof.
  intros Hall. unfold Np.mean.
  assert (Hsum : 0 <= Np.sum xs).
  { induction Hall as [|x xs Hx _ IH]; [simpl; lra|].
    change (Np.sum (x :: xs)) with (x + Np.sum xs). lra. }
  destruct xs as [|x xs'].
  - simpl. unfold Rdiv. rewrite Rinv_0. lra.
  - apply Rmult_le_pos; [exact Hsum|].
    left. apply Rinv_0_lt_compat, lt_0_INR. simpl. lia.
Qed.

Lemma zconfint_mean_ordered (x : list R) :
  fst (Statsmodels.zconfint_mean x) <= snd (Statsmodels.zconfint_mean x).
Proof.
  unfold Statsmodels.zconfint_mean. cbn [fst snd].
  set (v := Np.sum _ / _). set (w := INR (length x) - 1).
  assert (Hw : 0 <= / sqrt w).
  { destruct (Req_dec (sqrt w) 0) as [E|E].
    - rewrite E, Rinv_0. lra.
    - left. apply Rinv_0_lt_compat. pose proof (sqrt_pos w). lra. }
  assert (H : 0 <= Statsmodels.zcrit * (sqrt v / sqrt w)).
  { apply Rmult_le_pos; [unfold Statsmodels.zcrit; lra|].
    apply Rmult_le_pos; [apply sqrt_pos | exact Hw]. }
  lra.
Qed.

Lemma size_report_width (zconfint_mean : list R -> R * R)
      (dx : list (gender * R)) (line : nat * R) (cis : list (R * R)) :
  (forall x, fst (zconfint_mean x) <= snd (zconfint_mean x)) ->
  size_report zconfint_mean dx line cis ->
  0 <= snd line.
Proof.
  intros Hord (_ & Hall & Hline).
  rewrite mean_width_formula in Hline.
  rewrite Hline. apply mean_nonneg. apply Forall_map.
  eapply Forall_impl; [|exact Hall].
  intros ci (dz & _ & _ & ->). unfold Spec.width. specialize (Hord (map snd dz)). lra.
Qed.

(** X20: the width that the simulation prints for a sample size, the mean
    of the upper limits minus the mean of the lower limits, is never
    negative as long as [zconfint_mean] returns its lower limit first. *)
Theorem mean_width_nonneg
        (rng : Type) (choice : nat -> nat -> rng -> list nat * rng)
        (zconfint_mean : list R -> R * R) (dx : list (gender * R)) (s : rng) :
  draws_without_replacement choice ->
  (forall x, fst (zconfint_mean x) <= snd (zconfint_mean x)) ->
  (800 <= length dx)%nat ->
  exists printed all_cis s',
    simulation rng choice zconfint_mean dx s = Some ((printed, all_cis), s') /\
    map fst printed = [100; 200; 400; 800]%nat /\
    Forall (fun line => 0 <= snd line) printed.
Proof.
  intros Hc Hord Hlen.
  assert (Hns : Forall (fun n => (n <= length dx)%nat) [100; 200; 400; 800]%nat)
    by (repeat constructor; lia).
  destruct (outer_loop_succeeds rng choice zconfint_mean Hc dx _ Hns [] [] s)
    as (lines & arrays & s' & Hrun & Hfst & Hrep).
  exists lines, arrays, s'. split; [exact Hrun|]. split; [exact Hfst|].
  clear Hrun Hfst. induction Hrep as [|line cis lines arrays Hline _ IH];
    constructor; [eapply size_report_width; eassumption | exact IH].
Qed.

Lemma mean_width_nonneg_witness :
  exists printed all_cis s',
    simulation nat window_choice Statsmodels.zconfint_mean
               (dx_bmi (da_women 30 20)) 0%nat
    = Some ((printed, all_cis), s') /\
    map fst printed = [100; 200; 400; 800]%nat /\
    Forall (fun line => 0 <= snd line) printed.
Proof.
  refine (mean_width_nonneg nat window_choice Statsmodels.zconfint_mean
            (dx_bmi (da_women 30 20)) 0%nat window_choice_ok zconfint_mean_ordered _).
  rewrite length_dx_bmi_women. lia.
Defined.






(** ** Missing limits in the age-band frame of cell 46 *)

Lemma pd_std_defined (col : list (option R)) :
  Pd.std col <> None <-> (2 <= length (dropna col))%nat.
Proof.
  unfold Pd.std. cbv zeta.
  destruct (Nat.ltb_spec (length (dropna col)) 2); split;
    try congruence; try lia; discriminate.
Qed.

Lemma pd_mean_defined (col : list (option R)) :
  Pd.mean col <> None <-> (1 <= length (dropna col))%nat.
Proof.
  unfold Pd.mean. destruct (dropna col); simpl; split;
    try congruence; try lia; discriminate.
Qed.

(** X22: in the frame of cell 46 the difference of the mean BMI values of a
    band has a value exactly when the band holds a woman and a man with a
    BMI, and the two limits of its interval exactly when it holds at least
    two women and two men with a BMI; below that the [NaN] of pandas'
    standard deviation reaches the limits. *)
Theorem band_bmi_limits_defined_iff (da : table) (k : nat) :
  (mean_diff_bmi da k <> None <->
   (1 <= length (dropna (bmi_column da k Female)))%nat /\
   (1 <= length (dropna (bmi_column da k Male)))%nat) /\
  (lcb_diff_bmi da k <> None <->
   (2 <= length (dropna (bmi_column da k Female)))%nat /\
   (2 <= length (dropna (bmi_column da k Male)))%nat) /\
  (ucb_diff_bmi da k <> None <->
   (2 <= length (dropna (bmi_column da k Female)))%nat /\
   (2 <= length (dropna (bmi_column da k Male)))%nat).
Proof.
  pose proof (pd_std_defined (bmi_column da k Female)) as Hsf.
  pose proof (pd_std_defined (bmi_column da k Male)) as Hsm.
  pose proof (pd_mean_defined (bmi_column da k Female)) as Hmf.
  pose proof (pd_mean_defined (bmi_column da k Male)) as Hmm.
  assert (Hmd : mean_diff_bmi da k <> None <->
                Pd.mean (bmi_column da k Female) <> None /\
                Pd.mean (bmi_column da k Male) <> None).
  { unfold mean_diff_bmi.
    destruct (Pd.mean (bmi_column da k Female));
      destruct (Pd.mean (bmi_column da k Male)); cbn [obind];
      intuition congruence. }
  assert (Hsd : sem_diff_bmi da k <> None <->
                Pd.std (bmi_column da k Female) <> None /\
                Pd.std (bmi_column da k Male) <> None).
  { unfold sem_diff_bmi, sem_bmi.
    destruct (Pd.std (bmi_column da k Female));
      destruct (Pd.std (bmi_column da k Male)); cbn [obind];
      intuition congruence. }
  assert (Hl : lcb_diff_bmi da k <> None <->
               mean_diff_bmi da k <> None /\ sem_diff_bmi da k <> None).
  { unfold lcb_diff_bmi.
    destruct (mean_diff_bmi da k); destruct (sem_diff_bmi da k); cbn [obind];
      intuition congruence. }
  assert (Hu : ucb_diff_bmi da k <> None <->
               mean_diff_bmi da k <> None /\ sem_diff_bmi da k <> None).
  { unfold ucb_diff_bmi.
    destruct (mean_diff_bmi da k); destruct (sem_diff_bmi da k); cbn [obind];
      intuition congruence. }
  rewrite Hl, Hu, Hmd, Hsd, Hmf, Hmm, Hsf, Hsm.
  set (n_f := length (dropna (bmi_column da k Female))).
  set (n_m := length (dropna (bmi_column da k Male))).
  clearbody n_f n_m. clear.
  split; [|split]; split; intros H; lia.
Qed.

Example band_with_one_woman :
  mean_diff_bmi da_small 0 = Some (Np.mean [22; 24] - Np.mean [26; 28]) /\
  lcb_diff_bmi
    [mkRow None (Some 2%Z) (Some 25%Z) (Some 22);
     mkRow None (Some 1%Z) (Some 25%Z) (Some 26);
     mkRow None (Some 1%Z) (Some 25%Z) (Some 28)] 0 = None.
Proof. split; reflexivity. Qed.
